(** * Low-rank adaptation layer of [lit_llama/lora_new.py]

    A shallow embedding of [MergedLinearFull] (construction, [train],
    [forward]), of the two helpers [mark_only_lora_as_trainable] and
    [lora_state_dict], and of the [lora] context manager, together with the
    properties of the merge state machine, of the low-rank branch and of the
    parameter filters.

    Tensors hold elements of a type with the arithmetic operations
    ([Scalar]).  The statements of exact arithmetic assume in addition that
    these form a commutative ring ([ScalarLaws]), which floating-point
    numbers do not; the other statements hold for floating-point tensors
    as well, with the sums of [dot] taken in the order written there. *)

From Stdlib Require Import ZArith QArith Ring PrimFloat.
From stdpp Require Import base list strings gmap fin_maps.

(** * Exceptions *)

(** The exceptions the embedded code can raise. *)
Inductive PyError : Type :=
  | AssertionError
  | NotImplementedError
  | AttributeError
  | RuntimeError
  | ZeroDivisionError
  | ValueError.

Inductive result (A : Type) : Type :=
  | Ok (a : A)
  | Raise (e : PyError).
Arguments Ok {A} a.
Arguments Raise {A} e.

#[global] Instance result_ret : MRet result := λ A a, Ok a.

#[global] Instance result_bind : MBind result := λ A B f x,
  match x with
  | Ok a => f a
  | Raise e => Raise e
  end.

#[global] Instance result_fmap : FMap result := λ A B f x,
  match x with
  | Ok a => Ok (f a)
  | Raise e => Raise e
  end.

(** [getattr] on an attribute that [__init__] creates only conditionally. *)
Definition getattr {A} (o : option A) : result A :=
  match o with
  | Some a => Ok a
  | None => Raise AttributeError
  end.

(** Python's [any] on a list of booleans. *)
Definition any (l : list bool) : bool := existsb (λ b, b) l.

(** * Tensors *)

(** The scalars held by tensors, with Python's true division
    [lora_alpha / r] of two integers into them. *)
Class Scalar (R : Type) : Type := {
  rO : R;
  rI : R;
  radd : R → R → R;
  rmul : R → R → R;
  rsub : R → R → R;
  ropp : R → R;
  true_div : Z → Z → R
}.

(** Exact arithmetic: the scalars form a commutative ring.  Floating-point
    numbers do not, and a statement that assumes these laws is a statement
    of exact arithmetic. *)
Class ScalarLaws (R : Type) `{Scalar R} : Prop :=
  scalar_ring : ring_theory rO rI radd rmul rsub ropp (@eq R).

Section LoRA.

Context {R : Type} `{Scalar R}.

(** A two-dimensional tensor: its rows, and the size of its last axis (which
    the rows alone do not determine when there are none). *)
Record Mat : Type := mkMat { m_cols : nat; m_rows : list (list R) }.

Definition m_nrows (M : Mat) : nat := length (m_rows M).

Definition mat_wf (M : Mat) : Prop :=
  Forall (λ row, length row = m_cols M) (m_rows M).

Definition has_shape (n m : nat) (M : Mat) : Prop :=
  m_nrows M = n ∧ m_cols M = m ∧ mat_wf M.

(** [M[t][j]] *)
Definition entry (M : Mat) (t j : nat) : option R :=
  row ← m_rows M !! t; row !! j.

(** [new_zeros(n, m)] *)
Definition new_zeros (n m : nat) : Mat := mkMat m (replicate n (replicate m rO)).

(** A tensor filled by an initializer, entry by entry. *)
Definition tabulate (n m : nat) (f : nat → nat → R) : Mat :=
  mkMat m ((λ i, f i <$> seq 0 m) <$> seq 0 n).

Definition dot (u v : list R) : R := foldr radd rO (zip_with rmul u v).

Definition vadd (u v : list R) : list R := zip_with radd u v.

(** The sum of the vectors [vs] weighted by [cs], in dimension [n]. *)
Definition lincomb (n : nat) (cs : list R) (vs : list (list R)) : list R :=
  foldr vadd (replicate n rO) (zip_with (λ c v, rmul c <$> v) cs vs).

(** [M.T] *)
Definition transpose (M : Mat) : Mat :=
  mkMat (m_nrows M) ((λ j, (λ row, nth j row rO) <$> m_rows M) <$> seq 0 (m_cols M)).

(** [c * M] and [M * c] for a scalar [c]. *)
Definition scale_l (c : R) (M : Mat) : Mat :=
  mkMat (m_cols M) ((λ row : list R, rmul c <$> row) <$> m_rows M).

Definition scale_r (M : Mat) (c : R) : Mat :=
  mkMat (m_cols M) ((λ row : list R, (λ e, rmul e c) <$> row) <$> m_rows M).

(** Broadcasting of a vector of length 1 (or [n]) to length [n]. *)
Definition expand_vec (n : nat) (v : list R) : result (list R) :=
  if bool_decide (length v = n) then Ok v
  else match v with
       | [e] => Ok (replicate n e)
       | _ => Raise RuntimeError
       end.

(** Broadcasting of [D] to [n] rows of [m] columns; rows of [D] are assumed
    to have [m_cols D] elements. *)
Definition expand_rows (n m : nat) (D : Mat) : result (list (list R)) :=
  if bool_decide (m_cols D = m) || bool_decide (m_cols D = 1) then
    let widen (row : list R) : list R :=
      if bool_decide (m_cols D = m) then row else replicate m (nth 0 row rO) in
    if bool_decide (m_nrows D = n) then Ok (widen <$> m_rows D)
    else match m_rows D with
         | [row] => Ok (replicate n (widen row))
         | _ => Raise RuntimeError
         end
  else Raise RuntimeError.

(** [W += D]: the in-place sum, [D] broadcast to the shape of [W]. *)
Definition iadd (W D : Mat) : result Mat :=
  (rows ← expand_rows (m_nrows W) (m_cols W) D;
   Ok (mkMat (m_cols W) (zip_with vadd (m_rows W) rows))).

(** The bias added to a row of a projection, when there is one. *)
Definition add_bias (bias : option (list R)) (row : list R) : list R :=
  match bias with
  | Some b => vadd row b
  | None => row
  end.

(** [F.linear(x, W, bias)]: [x · Wᵗ + bias], for [x] of shape (T, in), [W] of
    shape (out, in) and [bias] of length out or [None]. *)
Definition linear (x W : Mat) (bias : option (list R)) : result Mat :=
  if bool_decide (m_cols x = m_cols W) then
    (b ← match bias with
          | Some b => Some <$> expand_vec (m_nrows W) b
          | None => Ok None
          end;
     Ok (mkMat (m_nrows W)
           ((λ xr, add_bias b ((λ wr, dot xr wr) <$> m_rows W)) <$> m_rows x)))
  else Raise RuntimeError.

(** [F.conv1d(X, K.unsqueeze(-1))] for an input [X] of shape (C_in, L) and a
    kernel of size one [K] of shape (C_out, C_in): the output has shape
    (C_out, L) and its row [j] is the sum over [k] of [K[j][k] * X[k]].  A
    leading batch axis of size one ([unsqueeze(0)] ... [squeeze(0)]) is left
    implicit.  The convolution rejects an input whose channel count differs
    from the kernel's, an input of length zero (shorter than the kernel) and
    a kernel without output channels. *)
Definition conv1d (X K : Mat) : result Mat :=
  if bool_decide (m_nrows X = m_cols K) && bool_decide (0 < m_cols X)
     && bool_decide (0 < m_nrows K) then
    Ok (mkMat (m_cols X) ((λ krow, lincomb (m_cols X) krow (m_rows X)) <$> m_rows K))
  else Raise RuntimeError.

(** * The layer *)

(** The attributes of a [MergedLinearFull] object.  [lora_A], [lora_B] and
    [scaling] are attributes that exist only when [__init__] created them.
    [lora_dropout] is [None] for the identity [lambda x: x] and otherwise
    the realization of [nn.Dropout] that is applied in training mode. *)
Record Layer : Type := mkLayer {
  in_features : nat;
  out_features : nat;
  weight : Mat;
  weight_requires_grad : bool;
  bias : option (list R);
  training : bool;
  r : Z;
  lora_alpha : Z;
  lora_dropout : option (Mat → Mat);
  merged : bool;
  merge_weights : bool;
  enable_lora : list bool;
  fan_in_fan_out : bool;
  lora_A : option Mat;
  lora_B : option Mat;
  scaling : option R
}.

Definition set_training (b : bool) (l : Layer) : Layer :=
  mkLayer (in_features l) (out_features l) (weight l) (weight_requires_grad l)
    (bias l) b (r l) (lora_alpha l) (lora_dropout l) (merged l)
    (merge_weights l) (enable_lora l) (fan_in_fan_out l) (lora_A l) (lora_B l)
    (scaling l).

Definition set_weight (W : Mat) (l : Layer) : Layer :=
  mkLayer (in_features l) (out_features l) W (weight_requires_grad l)
    (bias l) (training l) (r l) (lora_alpha l) (lora_dropout l) (merged l)
    (merge_weights l) (enable_lora l) (fan_in_fan_out l) (lora_A l) (lora_B l)
    (scaling l).

Definition set_merged (b : bool) (l : Layer) : Layer :=
  mkLayer (in_features l) (out_features l) (weight l) (weight_requires_grad l)
    (bias l) (training l) (r l) (lora_alpha l) (lora_dropout l) b
    (merge_weights l) (enable_lora l) (fan_in_fan_out l) (lora_A l) (lora_B l)
    (scaling l).

(** The arguments of [MergedLinearFull.__init__]; [arg_bias] is the [bias]
    keyword passed on to [nn.Linear], [arg_lora_dropout] is the probability
    [lora_dropout] (a finite number) and [arg_dropout] is the realization of
    [nn.Dropout(p=lora_dropout)]. *)
Record InitArgs : Type := mkInitArgs {
  arg_in_features : Z;
  arg_out_features : Z;
  arg_r : Z;
  arg_lora_alpha : Z;
  arg_lora_dropout : Q;
  arg_dropout : Mat → Mat;
  arg_enable_lora : list bool;
  arg_fan_in_fan_out : bool;
  arg_merge_weights : bool;
  arg_bias : bool
}.

(** The draws of the random initializers: [rand_weight] and [rand_bias] for
    [nn.Linear.reset_parameters], [rand_A] for [kaiming_uniform_]. *)
Record Init : Type := mkInit {
  rand_weight : nat → nat → R;
  rand_bias : nat → R;
  rand_A : nat → nat → R
}.

(** [nn.Dropout(p)], which rejects a probability outside [0, 1]. *)
Definition nn_Dropout (p : Q) (f : Mat → Mat) : result (Mat → Mat) :=
  if negb (Qle_bool 0 p) || negb (Qle_bool p 1) then Raise ValueError else Ok f.

(** The attribute [lora_dropout] that [LoRALayerFull.__init__] sets: the
    dropout when [lora_dropout > 0.], and otherwise [None] for the
    identity. *)
Definition LoRALayerFull_dropout (p : Q) (f : Mat → Mat)
  : result (option (Mat → Mat)) :=
  if negb (Qle_bool p 0) then Some <$> nn_Dropout p f else Ok None.

(** [MergedLinearFull.__init__].  [nn.Linear.__init__] comes first and
    rejects a negative size when it allocates the weight; then
    [LoRALayerFull.__init__]; then the assertion. *)
Definition __init__ (rnd : Init) (a : InitArgs) : result Layer :=
  if bool_decide (arg_in_features a < 0)%Z || bool_decide (arg_out_features a < 0)%Z
  then Raise RuntimeError
  else
    let n_in := Z.to_nat (arg_in_features a) in
    let n_out := Z.to_nat (arg_out_features a) in
    let W := tabulate n_out n_in (rand_weight rnd) in
    let b := if arg_bias a then Some (rand_bias rnd <$> seq 0 n_out) else None in
    drop ← LoRALayerFull_dropout (arg_lora_dropout a) (arg_dropout a);
    if bool_decide (length (arg_enable_lora a) = 0) then Raise ZeroDivisionError
    else if negb (bool_decide
                    ((arg_out_features a `mod` Z.of_nat (length (arg_enable_lora a)))%Z
                     = 0%Z))
    then Raise AssertionError
    else
      let has_lora := bool_decide (0 < arg_r a)%Z && any (arg_enable_lora a) in
      let rk := Z.to_nat (arg_r a) in
      Ok (mkLayer n_in n_out
            (if arg_fan_in_fan_out a then transpose W else W)
            (negb has_lora)
            b true (arg_r a) (arg_lora_alpha a) drop false (arg_merge_weights a)
            (arg_enable_lora a) (arg_fan_in_fan_out a)
            (if has_lora then Some (tabulate rk n_in (rand_A rnd)) else None)
            (if has_lora then Some (new_zeros n_out rk) else None)
            (if has_lora then Some (true_div (arg_lora_alpha a) (arg_r a)) else None)).

(** ** [train]: the merge transition *)

(** A call of a method that mutates [self]: the object when the call
    returns or raises, and [Some e] when it raises [e]. *)
Definition Method : Type := Layer → Layer * option PyError.

(** The nested function [T] of [train] and [forward]. *)
Definition T (self : Layer) (w : Mat) : Mat :=
  if fan_in_fan_out self then transpose w else w.

(** [MergedLinearFull.train] *)
Definition train (mode : bool) : Method := λ self0,
  let self := set_training mode self0 in
  let should := if mode then merged self else negb (merged self) in
  if merge_weights self && should then
    if bool_decide (0 < r self)%Z && any (enable_lora self) then
      match (A ← getattr (lora_A self);
             B ← getattr (lora_B self);
             delta_w ← conv1d A B;
             let sign := if mode then ropp rI else rI in
             s ← getattr (scaling self);
             iadd (weight self) (scale_r (scale_l sign delta_w) s))
      with
      | Ok W => (set_merged (negb mode) (set_weight W self), None)
      | Raise e => (self, Some e)
      end
    else (set_merged (negb mode) self, None)
  else (self, None).

(** Two calls in a row: the second one is not reached when the first one
    raises. *)
Definition seq_call (f g : Method) : Method := λ self,
  match f self with
  | (self', None) => g self'
  | (self', Some e) => (self', Some e)
  end.

(** ** [forward] *)

(** [self.lora_dropout(x)]; [nn.Dropout] is the identity in evaluation
    mode. *)
Definition apply_dropout (self : Layer) (x : Mat) : Mat :=
  match lora_dropout self with
  | Some f => if training self then f x else x
  | None => x
  end.

(** The term [after_B * self.scaling] that [forward] adds to the frozen
    projection. *)
Definition lora_branch (self : Layer) (x : Mat) : result Mat :=
  (A ← getattr (lora_A self);
   after_A ← linear (apply_dropout self x) A None;
   B ← getattr (lora_B self);
   conv ← conv1d (transpose after_A) B;
   let after_B := transpose conv in
   s ← getattr (scaling self);
   Ok (scale_r after_B s)).

(** [MergedLinearFull.forward] *)
Definition forward (self : Layer) (x : Mat) : result Mat :=
  if merged self then linear x (T self (weight self)) (bias self)
  else
    (result ← linear x (T self (weight self)) (bias self);
     if bool_decide (0 < r self)%Z then
       (upd ← lora_branch self x;
        iadd result upd)
     else Ok result).

(** Calls of [train] in a row, one per element of [modes]. *)
Fixpoint train_all (modes : list bool) : Method :=
  match modes with
  | [] => λ self, (self, None)
  | mode :: modes' => seq_call (train mode) (train_all modes')
  end.

(** * The shape invariant of a layer *)

(** The condition [r > 0 and any(enable_lora)] of [__init__] and [train]. *)
Definition has_lora (self : Layer) : bool :=
  bool_decide (0 < r self)%Z && any (enable_lora self).

(** What [__init__] establishes and every later assignment to a parameter
    keeps: the shapes of the tensors, and the presence of the low-rank
    attributes. *)
Record layer_wf (self : Layer) : Prop := {
  wf_weight :
    if fan_in_fan_out self
    then has_shape (in_features self) (out_features self) (weight self)
    else has_shape (out_features self) (in_features self) (weight self);
  wf_bias : ∀ b, bias self = Some b → length b = out_features self;
  wf_lora :
    if has_lora self
    then ∃ A B s,
        lora_A self = Some A ∧ lora_B self = Some B ∧ scaling self = Some s ∧
        has_shape (Z.to_nat (r self)) (in_features self) A ∧
        has_shape (out_features self) (Z.to_nat (r self)) B
    else lora_A self = None ∧ lora_B self = None ∧ scaling self = None;
  wf_dropout : ∀ f x n m,
    lora_dropout self = Some f → has_shape n m x → has_shape n m (f x)
}.

End LoRA.

(** * Parameter names *)

(** [sub in s] on strings. *)
Fixpoint str_contains (sub s : string) : bool :=
  String.prefix sub s ||
  match s with
  | EmptyString => false
  | String _ s' => str_contains sub s'
  end.

(** [s.split(sep)[0]]: what precedes the first occurrence of [sep], the
    whole of [s] when there is none. *)
Fixpoint split_head (sep s : string) : string :=
  if String.prefix sep s then EmptyString
  else match s with
       | EmptyString => EmptyString
       | String c s' => String c (split_head sep s')
       end.

(** The three recognized values of the [bias] argument. *)
Definition known_policy (bias : string) : Prop :=
  bias = "none" ∨ bias = "all" ∨ bias = "lora_only".

(** The exceptions that the code raises on purpose for a configuration it
    rejects: the [assert] of [__init__] and the [raise NotImplementedError]
    of the two filters. *)
Definition ConfigurationError (e : PyError) : Prop :=
  e = AssertionError ∨ e = NotImplementedError.

(** * [mark_only_lora_as_trainable] *)

(** A module of the model: its dotted path from the root (empty for the
    root), whether it is an instance of [LoRALayerFull], and its own
    parameters with their [requires_grad] flags.  A [bias] attribute that
    is absent or [None] is no parameter. *)
Record nn_Module : Type := mkModule {
  mod_path : string;
  mod_is_lora : bool;
  mod_params : list (string * bool)
}.

(** [model.modules()] *)
Definition Model : Type := list nn_Module.

Definition qualified (path name : string) : string :=
  if bool_decide (path = "") then name else path +:+ "." +:+ name.

(** [model.named_parameters()]: dotted names and flags. *)
Definition named_parameters (model : Model) : list (string * bool) :=
  m ← model; (λ p, (qualified (mod_path m) p.1, p.2)) <$> mod_params m.

(** Assigns [requires_grad] of the parameters whose dotted name satisfies
    [sel]. *)
Definition set_requires_grad (sel : string → bool) (g : bool) (model : Model) : Model :=
  (λ m, mkModule (mod_path m) (mod_is_lora m)
          ((λ p, (p.1, if sel (qualified (mod_path m) p.1) then g else p.2))
             <$> mod_params m)) <$> model.

(** [m.bias.requires_grad = True] in the instances of [LoRALayerFull]. *)
Definition unfreeze_lora_bias (model : Model) : Model :=
  (λ m, if mod_is_lora m
        then mkModule (mod_path m) (mod_is_lora m)
               ((λ p, (p.1, if bool_decide (p.1 = "bias") then true else p.2))
                  <$> mod_params m)
        else m) <$> model.

(** [mark_only_lora_as_trainable]: the model when the call returns or
    raises, and the exception if any. *)
Definition mark_only_lora_as_trainable (model : Model) (bias : string)
  : Model * option PyError :=
  let model := set_requires_grad (λ n, negb (str_contains "lora_" n)) false model in
  if bool_decide (bias = "none") then (model, None)
  else if bool_decide (bias = "all") then
    (set_requires_grad (str_contains "bias") true model, None)
  else if bool_decide (bias = "lora_only") then (unfreeze_lora_bias model, None)
  else (model, Some NotImplementedError).

(** * [lora_state_dict] *)

Section StateDict.

(** The tensors of a state dict. *)
Context {V : Type}.

(** [k.split('lora_')[0] + 'bias'] *)
Definition bias_name (k : string) : string := split_head "lora_" k +:+ "bias".

(** One turn of the loop of the [lora_only] branch. *)
Definition lora_only_step (my_state_dict : gmap string V) (k : string) (v : V)
    (to_return : gmap string V) : gmap string V :=
  if str_contains "lora_" k then
    let to_return := <[k := v]> to_return in
    match my_state_dict !! bias_name k with
    | Some b => <[bias_name k := b]> to_return
    | None => to_return
    end
  else to_return.

(** [lora_state_dict], on the state dict of the model. *)
Definition lora_state_dict (my_state_dict : gmap string V) (bias : string)
  : result (gmap string V) :=
  if bool_decide (bias = "none") then
    Ok (filter (λ kv, str_contains "lora_" kv.1) my_state_dict)
  else if bool_decide (bias = "all") then
    Ok (filter (λ kv, str_contains "lora_" kv.1 || str_contains "bias" kv.1)
          my_state_dict)
  else if bool_decide (bias = "lora_only") then
    Ok (map_fold (lora_only_step my_state_dict) ∅ my_state_dict)
  else Raise NotImplementedError.

End StateDict.

(** * The [lora] context manager *)

Section Scope.

(** The numbers [r], [alpha] and [dropout] of a configuration. *)
Context {F : Type}.

(** The classes that [llama.CausalSelfAttention] can name: the one of
    [lit_llama.model], the one of this file, or any other. *)
Inductive ClassRef : Type :=
  | LlamaCausalSelfAttention
  | LoraCausalSelfAttention
  | OtherClass (id : nat).

Record LoRAConfig : Type := mkLoRAConfig {
  cfg_r : F;
  cfg_alpha : F;
  cfg_dropout : F
}.

(** The two process-wide variables: the name [llama.CausalSelfAttention]
    and the class attribute [CausalSelfAttention.lora_config]. *)
Record Globals : Type := mkGlobals {
  llama_CausalSelfAttention : ClassRef;
  lora_config : option LoRAConfig
}.

(** The generator [lora] up to its [yield]: the globals then, and the local
    [causal_self_attention] when the scope is enabled. *)
Definition lora_enter (cfg : LoRAConfig) (enabled : bool) (g : Globals)
  : Globals * option ClassRef :=
  if negb enabled then (g, None)
  else
    let g1 := mkGlobals (llama_CausalSelfAttention g) (Some cfg) in
    let causal_self_attention := llama_CausalSelfAttention g1 in
    (mkGlobals LoraCausalSelfAttention (lora_config g1), Some causal_self_attention).

(** The generator [lora] resumed after its [yield]. *)
Definition lora_resume (saved : option ClassRef) (g : Globals) : Globals :=
  match saved with
  | None => g
  | Some causal_self_attention => mkGlobals causal_self_attention None
  end.

(** [with lora(r, alpha, dropout, enabled): body], by the protocol of
    [contextlib.contextmanager]: the generator runs up to its [yield], then
    the body runs; when the body returns the generator is resumed, and when
    the body raises the exception is thrown into the generator at its
    [yield], where no [try] encloses it, so the exception leaves the
    generator at once and then the [with] statement. *)
Definition with_lora (cfg : LoRAConfig) (enabled : bool)
    (body : Globals → Globals * option PyError) (g : Globals)
  : Globals * option PyError :=
  let '(g1, saved) := lora_enter cfg enabled g in
  match body g1 with
  | (g2, None) => (lora_resume saved g2, None)
  | (g2, Some e) => (g2, Some e)
  end.

End Scope.

(** * Integer scalars, for the examples *)

(** [true_div] is the quotient of the integers, which is the true division
    where it is exact, as it is in the examples. *)
#[global] Instance Z_scalar : Scalar Z :=
  Build_Scalar Z 0%Z 1%Z Z.add Z.mul Z.sub Z.opp Z.div.

#[global] Instance Z_laws : ScalarLaws Z := Zth.

(** The initializers of the examples: zero weights and biases, ones in
    [lora_A]. *)
Definition ex_rnd : Init (R := Z) := mkInit (λ _ _, 0%Z) (λ _, 0%Z) (λ _ _, 1%Z).

(** [MergedLinearFull(n_in, n_out, r=rk, lora_alpha=1, enable_lora=enable,
    fan_in_fan_out=fifo, bias=False)] *)
Definition ex_args (n_in n_out : nat) (rk : Z) (enable : list bool) (fifo : bool)
  : InitArgs (R := Z) :=
  mkInitArgs (Z.of_nat n_in) (Z.of_nat n_out) rk 1 0%Q (λ x, x) enable fifo true
    false.

(** A layer of rank zero, as [MergedLinearFull(1, 1)] builds it. *)
Definition ex_rank0 : Layer (R := Z) :=
  mkLayer 1 1 (mkMat 1 [[0%Z]]) true None true 0 1 None false true [false] false
    None None None.

(** [MergedLinearFull(2, 2, r=1, enable_lora=[True], fan_in_fan_out=fifo,
    bias=False)] with a zero weight, after training has set [lora_A] to
    [[1, 0]] and [lora_B] to [[0], [1]]. *)
Definition ex_square (fifo : bool) : Layer (R := Z) :=
  mkLayer 2 2 (mkMat 2 [[0; 0]; [0; 0]]%Z) false None true 1 1 None false true
    [true] fifo (Some (mkMat 2 [[1; 0]]%Z)) (Some (mkMat 1 [[0]; [1]]%Z))
    (Some 1%Z).

(** The input of two rows [[1, 0], [0, 1]]. *)
Definition ex_eye : Mat (R := Z) := mkMat 2 [[1; 0]; [0; 1]]%Z.


(** The input of one row [[1]]. *)
Definition ex_one : Mat (R := Z) := mkMat 1 [[1]]%Z.

(** [MergedLinearFull(1, 1, r=1, bias=False)]: rank one and the default
    [enable_lora=[False]]. *)
Definition ex_disabled : Layer (R := Z) :=
  mkLayer 1 1 (mkMat 1 [[0%Z]]) true None true 1 1 None false true [false] false
    None None None.

(** A frozen low-rank factor and a trainable weight in one module. *)
Definition ex_model : Model :=
  [mkModule "c_attn" true [("weight", true); ("lora_A", false)]].


(** The globals before any scope is entered, a configuration, and a body
    that raises without touching the globals. *)
Definition ex_globals : Globals (F := Z) := mkGlobals LlamaCausalSelfAttention None.

Definition ex_cfg : LoRAConfig (F := Z) := mkLoRAConfig 8%Z 16%Z 0%Z.

Definition ex_failing_body : Globals (F := Z) → Globals (F := Z) * option PyError :=
  λ g, (g, Some RuntimeError).

Definition ex_body : Globals (F := Z) → Globals (F := Z) * option PyError :=
  λ g, (g, None).

(** * Floating-point scalars, for the examples *)

(** The float of a positive integer, exact below 2^53. *)
Fixpoint pos_to_float (p : positive) : float :=
  match p with
  | xH => 1%float
  | xO p' => PrimFloat.mul 2%float (pos_to_float p')
  | xI p' => PrimFloat.add (PrimFloat.mul 2%float (pos_to_float p')) 1%float
  end.

Definition Z_to_float (z : Z) : float :=
  match z with
  | Z0 => 0%float
  | Zpos p => pos_to_float p
  | Zneg p => PrimFloat.opp (pos_to_float p)
  end.

(** Binary64 numbers with their rounded operations; [true_div] is Python's
    for integers below 2^53. *)
#[global] Instance float_scalar : Scalar float :=
  Build_Scalar float 0%float 1%float PrimFloat.add PrimFloat.mul PrimFloat.sub
    PrimFloat.opp (λ a b, PrimFloat.div (Z_to_float a) (Z_to_float b)).

(** [MergedLinearFull(1, 1, r=1, enable_lora=[True], bias=False,
    dtype=torch.float64)] with the weight set to 2^53 and [lora_A] and
    [lora_B] to [[1]]. *)
Definition ex_float_layer : @Layer float :=
  @mkLayer float 1 1 (mkMat 1 [[9007199254740992%float]]) false None true 1 1
    None false true [true] false (Some (mkMat 1 [[1%float]]))
    (Some (mkMat 1 [[1%float]])) (Some 1%float).

(** * Layers on which the merge cannot raise *)

(** Those without low-rank factors, those that do not merge, and those
    whose weight is stored untransposed with rows and columns. *)
Definition merge_safe {R : Type} (self : @Layer R) : Prop :=
  has_lora self = false ∨ merge_weights self = false ∨
  (fan_in_fan_out self = false ∧ 0 < in_features self ∧ 0 < out_features self).

(** * The attention block *)

Section Attention.

Context {R : Type} `{Scalar R} {F : Type}.

(** How [MergedLinearFull] reads the numbers of a configuration: [r] and
    [alpha] as the integers they are, [dropout] as the probability it is,
    and the realization of [nn.Dropout(dropout)].  A scope entered with an
    [r] or an [alpha] that is no integer, or with a [dropout] that is no
    finite number, is outside the model. *)
Record Reading : Type := mkReading {
  as_int : F → Z;
  as_probability : F → Q;
  dropout_of : F → @Mat R → @Mat R
}.

(** The fields of [llama.LLaMAConfig] that the attention block reads. *)
Record LLaMAConfig : Type := mkLLaMAConfig {
  config_block_size : Z;
  config_n_head : Z;
  config_n_embd : Z
}.

(** The attributes of a [CausalSelfAttention] object; [c_proj] is the weight
    of a [nn.Linear] without bias. *)
Record CausalSelfAttention : Type := mkCausalSelfAttention {
  c_attn : @Layer R;
  c_proj : @Mat R;
  n_head : Z;
  n_embd : Z;
  block_size : Z;
  rope_cache : option (@Mat R)
}.

(** The weight of [nn.Linear(in_features, out_features, bias=False)], which
    rejects a negative size. *)
Definition nn_Linear_weight (in_features out_features : Z)
    (rand : nat → nat → R) : result (@Mat R) :=
  if bool_decide (in_features < 0)%Z || bool_decide (out_features < 0)%Z
  then Raise RuntimeError
  else Ok (tabulate (Z.to_nat out_features) (Z.to_nat in_features) rand).

(** [CausalSelfAttention.__init__], with the class attribute [lora_config]
    read in the globals [g]; [rand_proj] draws the weight of [c_proj]. *)
Definition CausalSelfAttention_init (read : Reading) (rnd : @Init R)
    (rand_proj : nat → nat → R) (g : @Globals F) (config : LLaMAConfig)
  : result CausalSelfAttention :=
  if bool_decide (config_n_head config = 0%Z) then Raise ZeroDivisionError
  else if negb (bool_decide
                  ((config_n_embd config `mod` config_n_head config)%Z = 0%Z))
  then Raise AssertionError
  else
    cfg ← getattr (lora_config g);
    layer ← __init__ rnd
               (mkInitArgs (config_n_embd config) (3 * config_n_embd config)%Z
                  (as_int read (cfg_r cfg)) (as_int read (cfg_alpha cfg))
                  (as_probability read (cfg_dropout cfg))
                  (dropout_of read (cfg_dropout cfg))
                  [true; false; true] false true false);
    proj ← nn_Linear_weight (config_n_embd config) (config_n_embd config) rand_proj;
    Ok (mkCausalSelfAttention layer proj
          (config_n_head config) (config_n_embd config)
          (config_block_size config) None).

End Attention.

(** The reading of integer configurations (their dropout an integer too,
    realized by the identity) and a configuration of the attention block,
    for the examples. *)
Definition ex_reading : Reading (R := Z) (F := Z) :=
  mkReading (λ z, z) inject_Z (λ _ x, x).

Definition ex_config : LLaMAConfig := mkLLaMAConfig 8 2 4.


(** The state dict of a model whose root has a [bias] and whose module
    [c_attn] has a weight, a bias and a factor [lora_A]. *)
Definition ex_checkpoint : gmap string nat :=
  <["c_attn.lora_A" := 1]> (<["c_attn.bias" := 2]>
    (<["c_attn.weight" := 3]> (<["bias" := 4]> ∅))).

(** The state dict of a model without low-rank factors. *)
Definition ex_plain_state_dict : gmap string nat :=
  <["weight" := 1]> (<["bias" := 2]> ∅).

(** [MergedLinearFull(2, 1, r=1, enable_lora=[True], fan_in_fan_out=True,
    bias=False)] with a zero weight, stored with the shape (2, 1), after
    training has set [lora_B] to [[1]]. *)
Definition ex_wide : Layer (R := Z) :=
  mkLayer 2 1 (mkMat 1 [[0]; [0]]%Z) false None true 1 1 None false true
    [true] true (Some (mkMat 2 [[1; 1]]%Z)) (Some (mkMat 1 [[1]]%Z)) (Some 1%Z).

(** The order on flagged parameters: the same name, and trainable on the
    right when trainable on the left. *)
Definition flag_le (p q : string * bool) : Prop :=
  p.1 = q.1 ∧ (p.2 = true → q.2 = true).

(** * Tactics for the examples *)

Ltac solve_shape :=
  unfold has_shape, m_nrows, mat_wf; simpl;
  repeat split; repeat constructor.

Ltac solve_layer_wf :=
  constructor; simpl;
  [ solve_shape | by intros | eexists _, _, _; repeat split; repeat constructor
  | by intros ].

(** * The merge state machine *)

Section MergeStateMachine.

Context {R : Type} `{Scalar R}.
Implicit Types self : @Layer R.

(** C4: a second call of [train] with the same [mode] leaves the layer (its
    weight and its [merged] flag among the rest) as the first call left it
    and ends as the first call ended, whether the caller runs it after a
    first call that raised or not. *)
Theorem train_idempotent (mode : bool) self :
  train mode (train mode self).1 = train mode self ∧
  seq_call (train mode) (train mode) self = train mode self.
Proof.
  unfold seq_call, train.
  destruct self as [? ? W ? ? ? rk ? ? mg mw en ? A B s]; simpl.
  destruct mw, mode, mg; simpl; try (split; reflexivity);
    destruct (bool_decide (0 < rk)%Z && any en) eqn:E; simpl;
    rewrite ?E; try (split; reflexivity);
    match goal with
    | |- context [match ?x with Ok _ => _ | Raise _ => _ end] =>
        destruct x eqn:Ex
    end; simpl; rewrite ?E, ?Ex; split; reflexivity.
Qed.

(** One call of [train] on a layer without low-rank factors. *)
Lemma train_without_lora (mode : bool) self :
  has_lora self = false →
  train mode self =
    (set_merged (if merge_weights self then negb mode else merged self)
       (set_training mode self), None).
Proof.
  unfold has_lora, train.
  destruct self as [? ? W ? ? ? rk ? ? mg mw en ? A B s]; simpl.
  intros ->. by destruct mw, mode, mg.
Qed.

(** C5, as the code has it: on a layer of rank zero or without an enabled
    partition, calls of [train] never raise and never change the weight;
    the [merged] flag keeps its value when [merge_weights] is false, and is
    otherwise the negation of the [mode] of the last call. *)
Theorem train_all_without_lora (modes : list bool) self :
  has_lora self = false →
  (train_all modes self).2 = None ∧
  weight (train_all modes self).1 = weight self ∧
  merged (train_all modes self).1 =
    match last modes with
    | Some mode => if merge_weights self then negb mode else merged self
    | None => merged self
    end.
Proof.
  revert self. induction modes as [|mode modes IH]; intros self Hl; [done|].
  simpl. unfold seq_call. rewrite train_without_lora by done.
  set (self' := set_merged _ _).
  assert (has_lora self' = false) as Hl' by (by destruct self).
  assert (merge_weights self' = merge_weights self) as Hmw by (by destruct self).
  assert (weight self' = weight self) as HW by (by destruct self).
  destruct (IH self' Hl') as (He & Hw & Hm).
  split; [done|]. split; [congruence|].
  rewrite Hm, Hmw. destruct modes as [|mode' modes].
  - simpl. subst self'. by destruct self.
  - change (last (mode :: mode' :: modes)) with (last (mode' :: modes)).
    destruct (last (mode' :: modes)) eqn:El; [|by apply last_None in El].
    subst self'. destruct self as [? ? ? ? ? ? ? ? ? ? mw]; simpl. by destruct mw.
Qed.

End MergeStateMachine.

Lemma train_all_without_lora_witness :
  has_lora ex_rank0 = false ∧
  (train_all [true; false] ex_rank0).2 = None ∧
  weight (train_all [true; false] ex_rank0).1 = weight ex_rank0 ∧
  merged (train_all [true; false] ex_rank0).1 = true.
Proof.
  split; [reflexivity|].
  apply (train_all_without_lora [true; false] ex_rank0). reflexivity.
Defined.

(** C5 as stated fails: [MergedLinearFull(1, 1)] has rank zero, it is not
    merged when built, and [train(False)] sets its [merged] flag. *)
Lemma merged_flag_changes_at_rank_zero :
  __init__ ex_rnd (ex_args 1 1 0 [false] false) = Ok ex_rank0 ∧
  r ex_rank0 = 0%Z ∧ any (enable_lora ex_rank0) = false ∧
  merged ex_rank0 = false ∧
  merged (train_all [false] ex_rank0).1 = true.
Proof. repeat split. Qed.

(** * Tensor algebra *)

Section TensorFacts.

Context {R : Type} `{ScalarLaws R}.
Implicit Types (M W D X K : @Mat R) (u v w d cs : list R).
Implicit Types Ws rows vs : list (list R).

Add Ring Rring : (scalar_ring : ring_theory rO rI radd rmul rsub ropp (@eq R)).

Lemma vadd_length u v : length u = length v → length (vadd u v) = length u.
Proof. unfold vadd. rewrite length_zip_with. lia. Qed.

Lemma lincomb_length n cs vs :
  Forall (λ v, length v = n) vs → length (lincomb n cs vs) = n.
Proof.
  unfold lincomb. intros Hvs. revert cs.
  induction Hvs as [|v vs Hv Hvs IH]; intros [|c cs]; simpl;
    rewrite ?length_replicate; try done.
  rewrite vadd_length; rewrite length_fmap; [done|]. by rewrite IH.
Qed.

Lemma conv1d_shape X K D :
  mat_wf X → conv1d X K = Ok D → has_shape (m_nrows K) (m_cols X) D.
Proof.
  unfold conv1d. intros HX. case_match; [|done]. intros [= <-].
  unfold has_shape, m_nrows, mat_wf; simpl. rewrite length_fmap.
  repeat split. apply Forall_fmap, Forall_true. intros krow. simpl.
  by apply lincomb_length.
Qed.

Lemma expand_rows_shape n m D rows :
  mat_wf D → expand_rows n m D = Ok rows →
  length rows = n ∧ Forall (λ row, length row = m) rows.
Proof.
  unfold expand_rows, mat_wf, m_nrows. intros HD.
  destruct (decide (m_cols D = m)) as [Hm|Hm].
  - rewrite (bool_decide_true _ Hm). simpl.
    case_bool_decide as Hn.
    + intros [= <-]. rewrite length_fmap. split; [done|].
      rewrite Forall_fmap. eapply Forall_impl; [done|]. simpl. congruence.
    + destruct (m_rows D) as [|row [|]] eqn:E; try done. intros [= <-].
      rewrite length_replicate. split; [done|]. apply Forall_replicate.
      inversion HD. congruence.
  - rewrite (bool_decide_false _ Hm). simpl.
    case_bool_decide as H1; [|done]. simpl.
    case_bool_decide as Hn.
    + intros [= <-]. rewrite length_fmap. split; [done|].
      rewrite Forall_fmap. apply Forall_true. intros row; simpl.
      by rewrite length_replicate.
    + destruct (m_rows D) as [|row [|]] eqn:E; try done. intros [= <-].
      rewrite length_replicate. split; [done|]. apply Forall_replicate.
      by rewrite length_replicate.
Qed.


Lemma expand_rows_fmap (f : R → R) n m D D' :
  mat_wf D → m_cols D' = m_cols D → m_rows D' = fmap (M:=list) f <$> m_rows D →
  expand_rows n m D' =
    match expand_rows n m D with
    | Ok rows => Ok (fmap (M:=list) f <$> rows)
    | Raise e => Raise e
    end.
Proof.
  unfold expand_rows, mat_wf, m_nrows. intros HD -> ->. rewrite length_fmap.
  destruct (decide (m_cols D = m)) as [Hm|Hm].
  - rewrite (bool_decide_true _ Hm). simpl.
    case_bool_decide as Hn.
    + f_equal. by rewrite <- !list_fmap_compose.
    + destruct (m_rows D) as [|row [|]] eqn:E; try done.
      simpl. by rewrite fmap_replicate.
  - rewrite (bool_decide_false _ Hm). simpl.
    case_bool_decide as H1; [|done]. simpl.
    assert (∀ row, row ∈ m_rows D →
              replicate m (nth 0 (f <$> row) rO) = f <$> replicate m (nth 0 row rO))
      as Hw.
    { intros row Hrow. rewrite Forall_forall in HD. specialize (HD row Hrow).
      rewrite H1 in HD. destruct row as [|e [|]]; try done. simpl.
      by rewrite fmap_replicate. }
    case_bool_decide as Hn.
    + f_equal. rewrite <- !list_fmap_compose.
      apply Forall_fmap_ext_1, Forall_forall. intros row Hrow. simpl.
      by apply Hw.
    + destruct (m_rows D) as [|row [|]] eqn:E; try done.
      simpl. rewrite fmap_replicate. f_equal. f_equal. apply Hw. set_solver.
Qed.

Lemma vadd_fmap_cancel (f g : R → R) w d :
  (∀ a e, radd (radd a (f e)) (g e) = a) → length w = length d →
  vadd (vadd w (f <$> d)) (g <$> d) = w.
Proof.
  intros Hfg. revert d. unfold vadd.
  induction w as [|a w IH]; intros [|e d]; simpl; try done.
  intros [= Hl]. f_equal; auto.
Qed.

Lemma rows_fmap_cancel (f g : R → R) Ws rows :
  (∀ a e, radd (radd a (f e)) (g e) = a) →
  Forall2 (λ w d, length w = length d) Ws rows →
  zip_with vadd (zip_with vadd Ws (fmap (M:=list) f <$> rows)) (fmap (M:=list) g <$> rows) = Ws.
Proof.
  intros Hfg. induction 1 as [|w d Ws rows Hl _ IH]; simpl; [done|].
  f_equal; [by apply vadd_fmap_cancel | done].
Qed.

Lemma same_lengths Ws rows n m :
  length Ws = n → Forall (λ row, length row = m) Ws →
  length rows = n → Forall (λ row, length row = m) rows →
  Forall2 (λ w d, length w = length d) Ws rows.
Proof.
  intros HnW HmW Hn Hm. apply Forall2_same_length_lookup_2.
  - congruence.
  - intros i w d Hw Hd. rewrite Forall_lookup in HmW, Hm.
    rewrite (HmW _ _ Hw), (Hm _ _ Hd). done.
Qed.

(** Adding [f] of a tensor in place and then [g] of it, where [g] undoes
    [f], gives back the tensor one started from. *)
Lemma iadd_fmap_cancel (f g : R → R) W D D1 D2 W1 :
  (∀ a e, radd (radd a (f e)) (g e) = a) →
  mat_wf W → mat_wf D →
  m_cols D1 = m_cols D → m_rows D1 = fmap (M:=list) f <$> m_rows D →
  m_cols D2 = m_cols D → m_rows D2 = fmap (M:=list) g <$> m_rows D →
  iadd W D1 = Ok W1 → iadd W1 D2 = Ok W.
Proof.
  intros Hfg HW HD Hc1 Hr1 Hc2 Hr2. unfold iadd.
  rewrite (expand_rows_fmap f _ _ D D1) by done.
  destruct (expand_rows (m_nrows W) (m_cols W) D) as [rows|e] eqn:E; [|done].
  simpl. intros [= <-]. simpl.
  destruct (expand_rows_shape _ _ _ _ HD E) as [Hn Hm].
  assert (Forall2 (λ w d, length w = length d) (m_rows W) rows) as Hsame.
  { by eapply same_lengths. }
  unfold m_nrows at 1. simpl. rewrite length_zip_with, length_fmap.
  replace (length (m_rows W) `min` length rows) with (m_nrows W)
    by (unfold m_nrows in *; lia).
  rewrite (expand_rows_fmap g _ _ D D2) by done. rewrite E. simpl.
  rewrite rows_fmap_cancel by done. by destruct W.
Qed.

Lemma scale_rows (c s : R) D :
  m_rows (scale_r (scale_l c D) s) = fmap (M:=list) (λ e, rmul (rmul c e) s) <$> m_rows D.
Proof.
  simpl. rewrite <- list_fmap_compose. apply list_fmap_ext. intros _ row _.
  simpl. by rewrite <- list_fmap_compose.
Qed.

Lemma conv1d_ok X K n m k :
  has_shape k n X → has_shape m k K → 0 < n → 0 < m →
  ∃ D, conv1d X K = Ok D ∧ has_shape m n D.
Proof.
  intros HX HK Hn Hm. destruct (conv1d X K) as [D|e] eqn:E.
  - exists D. split; [done|]. destruct HX as (? & <- & ?), HK as (<- & ? & ?).
    by eapply conv1d_shape.
  - exfalso. unfold conv1d in E.
    destruct HX as (HXn & HXm & _), HK as (HKn & HKm & _).
    rewrite !bool_decide_true in E by lia. done.
Qed.

Lemma scale_shape (c s : R) D n m :
  has_shape n m D → has_shape n m (scale_r (scale_l c D) s).
Proof.
  intros (Hn & Hm & Hwf). unfold has_shape, m_nrows, mat_wf in *.
  rewrite scale_rows. simpl. rewrite length_fmap. repeat split; try done.
  rewrite Forall_fmap. eapply Forall_impl; [done|]. intros row. simpl.
  by rewrite length_fmap.
Qed.

Lemma iadd_same_shape W D :
  m_nrows D = m_nrows W → m_cols D = m_cols W →
  iadd W D = Ok (mkMat (m_cols W) (zip_with vadd (m_rows W) (m_rows D))).
Proof.
  intros Hn Hm. unfold iadd, expand_rows.
  rewrite !(bool_decide_true _ Hm), (bool_decide_true _ Hn). simpl.
  by rewrite list_fmap_id.
Qed.

Lemma vadd_swap u v w : vadd (vadd u v) w = vadd (vadd u w) v.
Proof.
  unfold vadd. revert v w.
  induction u as [|a u IH]; intros [|b v] [|c w]; simpl; try done.
  f_equal; [ring | apply IH].
Qed.

Lemma dot_cons (a b : R) u v : dot (a :: u) (b :: v) = radd (rmul a b) (dot u v).
Proof. done. Qed.

Lemma dot_nil_r u : dot u [] = rO.
Proof. by destruct u. Qed.

Lemma dot_vadd_r u v w :
  length v = length w → dot u (vadd v w) = radd (dot u v) (dot u w).
Proof.
  revert v w. induction u as [|a u IH]; intros v w Hl.
  { unfold dot. simpl. ring. }
  destruct v as [|b v], w as [|c w]; try done.
  - rewrite !dot_nil_r. ring.
  - injection Hl as Hl. unfold vadd. simpl. rewrite !dot_cons.
    fold (vadd v w). rewrite IH by done. ring.
Qed.

Lemma dot_fmap_r (f : R → R) (c : R) u v :
  (∀ a e, rmul a (f e) = rmul (rmul a e) c) →
  dot u (f <$> v) = rmul (dot u v) c.
Proof.
  intros Hf. revert v. induction u as [|a u IH]; intros v.
  { unfold dot. simpl. ring. }
  destruct v as [|b v].
  - rewrite !dot_nil_r. ring.
  - rewrite fmap_cons, !dot_cons, IH, Hf. ring.
Qed.

Lemma dot_replicate_zero u n : dot u (replicate n rO) = rO.
Proof.
  revert n. induction u as [|a u IH]; intros [|n]; try done.
  simpl. rewrite dot_cons, IH. ring.
Qed.

(** The entries of a weighted sum of vectors. *)
Lemma lincomb_lookup n cs vs t :
  Forall (λ v, length v = n) vs → t < n →
  lincomb n cs vs !! t = Some (dot cs ((λ v, nth t v rO) <$> vs)).
Proof.
  intros Hvs Ht. revert cs.
  induction Hvs as [|v vs Hv Hvs IH]; intros [|c cs]; unfold lincomb; simpl.
  - by apply lookup_replicate.
  - rewrite dot_nil_r. by apply lookup_replicate.
  - by apply lookup_replicate.
  - fold (lincomb n cs vs). unfold vadd. rewrite lookup_zip_with.
    rewrite list_lookup_fmap, IH, dot_cons.
    destruct (lookup_lt_is_Some_2 v t) as [e E]; [lia|].
    rewrite (nth_lookup_Some _ _ _ _ E). by rewrite E.
Qed.

(** The scalar product with a weighted sum of vectors. *)
Lemma dot_lincomb n u cs vs :
  Forall (λ v, length v = n) vs →
  dot u (lincomb n cs vs) = dot cs ((λ v, dot u v) <$> vs).
Proof.
  intros Hvs. revert cs.
  induction Hvs as [|v vs Hv Hvs IH]; intros [|c cs]; unfold lincomb; simpl;
    rewrite ?dot_replicate_zero, ?dot_nil_r; try done.
  fold (lincomb n cs vs). rewrite dot_vadd_r, dot_cons, IH.
  - rewrite (dot_fmap_r (rmul c) c).
    + f_equal. ring.
    + intros; ring.
  - rewrite length_fmap, lincomb_length; done.
Qed.

Lemma add_bias_length (bias : option (list R)) v n :
  (∀ b, bias = Some b → length b = n) → length v = n →
  length (add_bias bias v) = n.
Proof.
  intros Hb Hv. destruct bias as [b|]; simpl; [|done].
  rewrite vadd_length; [done|]. rewrite (Hb b); done.
Qed.

Lemma linear_ok x W (bias : option (list R)) n k m :
  has_shape n k x → has_shape m k W →
  (∀ b, bias = Some b → length b = m) →
  linear x W bias =
    Ok (mkMat m ((λ xr, add_bias bias ((λ wr, dot xr wr) <$> m_rows W))
                   <$> m_rows x)).
Proof.
  intros (_ & Hxk & _) (HWm & HWk & _) Hb. unfold linear.
  rewrite bool_decide_true by congruence. rewrite HWm.
  destruct bias as [b|]; simpl; [|done].
  unfold expand_vec. by rewrite bool_decide_true by auto.
Qed.

Lemma fmap_nth_seq (l : list R) k :
  length l = k → (λ j, nth j l rO) <$> seq 0 k = l.
Proof.
  intros <-. apply list_eq. intros i. rewrite list_lookup_fmap.
  destruct (decide (i < length l)) as [Hi|Hi].
  - rewrite lookup_seq_lt by done. simpl.
    destruct (lookup_lt_is_Some_2 l i Hi) as [e E].
    by rewrite (nth_lookup_Some _ _ _ _ E), E.
  - rewrite lookup_seq_ge by lia. symmetry. apply lookup_ge_None. lia.
Qed.

Lemma transpose_shape X n m : has_shape n m X → has_shape m n (transpose X).
Proof.
  intros (Hn & Hm & _). unfold has_shape, m_nrows, mat_wf, transpose. simpl.
  rewrite length_fmap, length_seq. repeat split; try done.
  apply Forall_fmap, Forall_true. intros j. simpl. by rewrite length_fmap.
Qed.

(** Row [j] of [K] applied to column [t] of [X.T] is row [j] of [K] applied
    to row [t] of [X]: the transposes around [conv1d] in [forward] amount to
    a product with the transpose of the kernel. *)
Lemma conv1d_transpose X K n k m :
  has_shape n k X → has_shape m k K → 0 < n → 0 < m →
  ∃ C, conv1d (transpose X) K = Ok C ∧
       transpose C = mkMat m ((λ xr, (λ kr, dot kr xr) <$> m_rows K) <$> m_rows X).
Proof.
  intros HX HK Hn Hm.
  destruct (conv1d_ok (transpose X) K n m k) as (C & EC & HC); try done.
  { by apply transpose_shape. }
  exists C. split; [done|].
  unfold conv1d in EC. case_match; [|done]. injection EC as <-.
  destruct HX as (HXn & HXk & HXwf), HK as (HKm & HKk & HKwf).
  unfold m_nrows in *.
  unfold transpose at 1, m_nrows. simpl. rewrite length_fmap, HKm. f_equal.
  rewrite HXn.
  apply list_eq. intros t. rewrite !list_lookup_fmap.
  destruct (decide (t < n)) as [Ht|Ht].
  2:{ rewrite lookup_seq_ge by lia. rewrite (proj2 (lookup_ge_None _ _)); [done|].
      lia. }
  rewrite lookup_seq_lt by done.
  destruct (lookup_lt_is_Some_2 (m_rows X) t) as [xr Exr].
  { lia. }
  rewrite Exr. simpl. f_equal. rewrite <- list_fmap_compose.
  apply list_fmap_ext. intros j kr _. simpl.
  assert (Forall (λ v : list R, length v = n)
            ((λ j0, (λ row, nth j0 row rO) <$> m_rows X) <$> seq 0 (m_cols X))) as Hall.
  { apply Forall_fmap, Forall_true. intros j0. simpl.
    rewrite length_fmap. apply HXn. }
  rewrite (nth_lookup_Some _ _ _ _ (lincomb_lookup _ kr _ _ Hall Ht)).
  f_equal. rewrite <- list_fmap_compose. rewrite <- (fmap_nth_seq xr (m_cols X)).
  - apply list_fmap_ext. intros i j0 _. simpl.
    apply nth_lookup_Some. by rewrite list_lookup_fmap, Exr.
  - unfold mat_wf in HXwf. rewrite Forall_lookup in HXwf. by eapply HXwf.
Qed.

Lemma zip_with_fmap_diag {T1 T2 T3 T4 : Type} (f : T2 → T3 → T4)
    (g : T1 → T2) (h : T1 → T3) (l : list T1) :
  zip_with f (g <$> l) (h <$> l) = (λ a, f (g a) (h a)) <$> l.
Proof. induction l as [|a l IH]; [done|]. csimpl. by rewrite IH. Qed.

(** A row of the projection by the merged weight: the frozen projection
    plus the low-rank branch. *)
Lemma merged_row (s : R) u Ws rows vs (bias : option (list R)) n :
  length Ws = length rows →
  Forall (λ w, length w = n) Ws → Forall (λ v, length v = n) vs →
  add_bias bias
    ((λ wr, dot u wr)
       <$> zip_with vadd Ws
             (fmap (M:=list) (λ e, rmul (rmul rI e) s)
                <$> ((λ kr, lincomb n kr vs) <$> rows))) =
  vadd (add_bias bias ((λ wr, dot u wr) <$> Ws))
       ((λ kr, rmul (dot kr ((λ v, dot u v) <$> vs)) s) <$> rows).
Proof.
  intros Hl HWs Hvs.
  assert ((λ wr, dot u wr)
            <$> zip_with vadd Ws
                  (fmap (M:=list) (λ e, rmul (rmul rI e) s)
                     <$> ((λ kr, lincomb n kr vs) <$> rows)) =
          vadd ((λ wr, dot u wr) <$> Ws)
               ((λ kr, rmul (dot kr ((λ v, dot u v) <$> vs)) s) <$> rows)) as ->.
  { revert rows Hl.
    induction HWs as [|w Ws Hw HWs IH]; intros [|kr rows]; try done.
    simpl. intros [= Hl]. unfold vadd in *. simpl. f_equal.
    - change (zip_with radd) with vadd.
      rewrite dot_vadd_r by (by rewrite length_fmap, lincomb_length).
      rewrite (dot_fmap_r (λ e, rmul (rmul rI e) s) s) by (intros; ring).
      by rewrite (dot_lincomb n).
    - by apply IH. }
  destruct bias as [b|]; simpl; [apply vadd_swap | done].
Qed.

End TensorFacts.

(** * Merging and unmerging *)

Section Merge.

Context {R : Type} `{ScalarLaws R}.
Implicit Types (self : @Layer R) (A B W D x : @Mat R).

Add Ring Rring_merge : (scalar_ring : ring_theory rO rI radd rmul rsub ropp (@eq R)).

(** The weight that [train(mode)] assigns when it merges or unmerges. *)
Lemma train_with_lora (mode : bool) self A B (s : R) :
  lora_A self = Some A → lora_B self = Some B → scaling self = Some s →
  has_lora self = true → merge_weights self = true → merged self = mode →
  train mode self =
    match delta_w ← conv1d A B;
          iadd (weight self)
            (scale_r (scale_l (if mode then ropp rI else rI) delta_w) s)
    with
    | Ok W' => (set_merged (negb mode) (set_weight W' (set_training mode self)), None)
    | Raise e => (set_training mode self, Some e)
    end.
Proof.
  unfold has_lora, train.
  destruct self as [? ? W ? ? ? rk ? ? mg mw en ? oA oB os]; simpl.
  intros -> -> -> -> -> ->. simpl.
  destruct mode; simpl; destruct (conv1d A B); simpl; try done;
    by match goal with |- context [iadd ?a ?b] => destruct (iadd a b) end.
Qed.

(** Calls of [train] that leave the weight and the flag as they are. *)
Lemma train_noop (mode : bool) self :
  merge_weights self = false ∨ merged self = negb mode →
  train mode self = (set_training mode self, None).
Proof.
  unfold train.
  destruct self as [? ? W ? ? ? rk ? ? mg mw en ? oA oB os]; simpl.
  intros [->| ->]; [done|]. rewrite andb_comm. by destruct mode.
Qed.

Lemma layer_wf_weight self : layer_wf self → mat_wf (weight self).
Proof. intros [Hw _ _ _]. destruct (fan_in_fan_out self); apply Hw. Qed.

(** In exact arithmetic: from an unmerged layer, [train(False)] followed by
    [train(True)] leaves the weight as it was, and the layer unmerged; the
    two calls return when the weight is stored untransposed and has rows
    and columns. *)
Lemma merge_unmerge_roundtrip self :
  layer_wf self → merged self = false →
  weight (seq_call (train false) (train true) self).1 = weight self ∧
  merged (seq_call (train false) (train true) self).1 = false ∧
  (fan_in_fan_out self = false →
   0 < in_features self → 0 < out_features self →
   (train false self).2 = None ∧
   merged (train false self).1 = merge_weights self ∧
   (seq_call (train false) (train true) self).2 = None).
Proof.
  intros Hwf Hm. unfold seq_call.
  destruct (merge_weights self) eqn:Hmw.
  2:{ rewrite !train_noop by (left; by destruct self). simpl.
      by destruct self. }
  destruct (has_lora self) eqn:Hl.
  2:{ rewrite !train_without_lora by (by destruct self). simpl.
      destruct self; simpl in *. by rewrite Hmw. }
  pose proof (wf_lora _ Hwf) as HL. rewrite Hl in HL.
  destruct HL as (A & B & s & HA & HB & Hs & HAs & HBs).
  pose proof (wf_weight _ Hwf) as HWs.
  rewrite (train_with_lora false self A B s) by done.
  destruct (conv1d A B) as [delta_w|e] eqn:Ec; simpl.
  2:{ split; [by destruct self|]. split; [by destruct self|].
      intros Hf Hi Ho. exfalso.
      destruct (conv1d_ok A B _ _ _ HAs HBs Hi Ho) as (? & ? & _). congruence. }
  assert (has_shape (m_nrows B) (m_cols A) delta_w) as Hd.
  { eapply conv1d_shape; [apply HAs|done]. }
  destruct (iadd (weight self) _) as [W1|e] eqn:E1; simpl.
  2:{ split; [by destruct self|]. split; [by destruct self|].
      intros Hf Hi Ho. exfalso. rewrite Hf in HWs.
      rewrite iadd_same_shape in E1; [done| |].
      - by rewrite (proj1 (scale_shape rI s _ _ _ Hd)), (proj1 HBs), (proj1 HWs).
      - by rewrite (proj1 (proj2 (scale_shape rI s _ _ _ Hd))),
             (proj1 (proj2 HAs)), (proj1 (proj2 HWs)). }
  rewrite (train_with_lora true _ A B s) by (by destruct self).
  rewrite Ec. simpl.
  rewrite (iadd_fmap_cancel (λ e, rmul (rmul rI e) s)
             (λ e, rmul (rmul (ropp rI) e) s) (weight self) delta_w
             (scale_r (scale_l rI delta_w) s)
             (scale_r (scale_l (ropp rI) delta_w) s) W1);
    simpl; try done.
  - intros a e. ring.
  - by apply layer_wf_weight.
  - apply Hd.
  - apply scale_rows.
  - apply scale_rows.
Qed.

(** [self.lora_dropout(x)] has the shape of [x]. *)
Lemma apply_dropout_shape self x n m :
  layer_wf self → has_shape n m x → has_shape n m (apply_dropout self x).
Proof.
  intros Hwf Hx. unfold apply_dropout.
  destruct (lora_dropout self) as [f|] eqn:E; [|done].
  destruct (training self); [|done]. by eapply wf_dropout.
Qed.

(** The value of the low-rank branch of [forward]: at row [t] and output
    index [j], the scalar product of row [j] of [lora_B] with [lora_A]
    applied to row [t] of the input, times [scaling]. *)
Lemma lora_branch_ok self A B (s : R) x n :
  layer_wf self → has_lora self = true →
  lora_A self = Some A → lora_B self = Some B → scaling self = Some s →
  has_shape n (in_features self) x → 0 < n → 0 < out_features self →
  lora_branch self x =
    Ok (mkMat (out_features self)
          ((λ xr, (λ Bj, rmul (dot Bj ((λ Ak, dot xr Ak) <$> m_rows A)) s)
                    <$> m_rows B)
             <$> m_rows (apply_dropout self x))).
Proof.
  intros Hwf Hl HA HB Hs Hx Hn Ho.
  pose proof (wf_lora _ Hwf) as HL. rewrite Hl, HA, HB, Hs in HL.
  destruct HL as (A' & B' & s' & [= <-] & [= <-] & [= <-] & HAs & HBs).
  pose proof (apply_dropout_shape self x _ _ Hwf Hx) as Hx'.
  unfold lora_branch. rewrite HA, HB, Hs. simpl.
  rewrite (linear_ok _ A None n (in_features self) (Z.to_nat (r self))) by done.
  simpl.
  set (AA := mkMat _ _).
  assert (AA = mkMat (Z.to_nat (r self))
                 ((λ xr, (λ Ak, dot xr Ak) <$> m_rows A)
                    <$> m_rows (apply_dropout self x))) as ->.
  { done. }
  destruct (conv1d_transpose
              (mkMat (Z.to_nat (r self))
                 ((λ xr, (λ Ak, dot xr Ak) <$> m_rows A)
                    <$> m_rows (apply_dropout self x)))
              B n (Z.to_nat (r self)) (out_features self))
    as (C & EC & EC'); try done.
  { unfold has_shape, m_nrows, mat_wf. simpl. rewrite length_fmap.
    repeat split; [apply Hx'|]. apply Forall_fmap, Forall_true. intros xr.
    simpl. rewrite length_fmap. apply HAs. }
  rewrite EC. simpl. rewrite EC'. unfold scale_r. simpl. f_equal. f_equal.
  rewrite <- !list_fmap_compose. apply list_fmap_ext. intros _ xr _. simpl.
  by rewrite <- list_fmap_compose.
Qed.

Lemma T_shape self :
  layer_wf self →
  has_shape (out_features self) (in_features self) (T self (weight self)).
Proof.
  intros Hwf. pose proof (wf_weight _ Hwf) as HW. unfold T.
  destruct (fan_in_fan_out self); [by apply transpose_shape | done].
Qed.

Lemma has_lora_rank self : has_lora self = true → bool_decide (0 < r self)%Z = true.
Proof. unfold has_lora. by intros [? _]%andb_true_iff. Qed.

(** [forward] on an unmerged layer with low-rank factors: the frozen
    projection plus the low-rank branch. *)
Lemma forward_unmerged self A B (s : R) x n :
  layer_wf self → has_lora self = true → merged self = false →
  lora_A self = Some A → lora_B self = Some B → scaling self = Some s →
  has_shape n (in_features self) x → 0 < n → 0 < out_features self →
  forward self x =
    Ok (mkMat (out_features self)
          (zip_with vadd
             ((λ xr, add_bias (bias self)
                       ((λ wr, dot xr wr) <$> m_rows (T self (weight self))))
                <$> m_rows x)
             ((λ xr, (λ Bj, rmul (dot Bj ((λ Ak, dot xr Ak) <$> m_rows A)) s)
                       <$> m_rows B)
                <$> m_rows (apply_dropout self x)))).
Proof.
  intros Hwf Hl Hm HA HB Hs Hx Hn Ho. unfold forward. rewrite Hm.
  rewrite (linear_ok x _ _ n (in_features self) (out_features self));
    [|done|by apply T_shape|by apply wf_bias].
  simpl. rewrite (has_lora_rank _ Hl).
  rewrite (lora_branch_ok self A B s x n) by done. simpl.
  rewrite iadd_same_shape; [done| |done].
  destruct (apply_dropout_shape self x _ _ Hwf Hx) as (Hn' & _).
  destruct Hx as (Hnx & _). unfold m_nrows in *. simpl.
  rewrite !length_fmap. congruence.
Qed.


(** [forward] at rank zero: the frozen projection, whose entry at row [t]
    and output index [j] is the scalar product of row [t] of the input with
    row [j] of [T(weight)], plus entry [j] of the bias. *)
Lemma forward_without_rank self x n :
  layer_wf self → (r self ≤ 0)%Z → has_shape n (in_features self) x →
  forward self x =
    Ok (mkMat (out_features self)
          ((λ xr, add_bias (bias self)
                    ((λ wr, dot xr wr) <$> m_rows (T self (weight self))))
             <$> m_rows x)).
Proof.
  intros Hwf Hr Hx. unfold forward.
  rewrite (linear_ok x _ _ n (in_features self) (out_features self));
    [|done|by apply T_shape|by apply wf_bias].
  destruct (merged self); [done|]. simpl.
  by rewrite bool_decide_false by lia.
Qed.

(** [train] keeps the shape invariant. *)
Lemma train_wf (mode : bool) self : layer_wf self → layer_wf (train mode self).1.
Proof.
  intros Hwf.
  assert (∀ b, layer_wf (set_training b self)) as Htr.
  { intros b. destruct Hwf. by constructor. }
  assert (∀ b b', layer_wf (set_merged b (set_training b' self))) as Hmg.
  { intros b b'. destruct Hwf. by constructor. }
  destruct (has_lora self) eqn:Hl.
  2:{ rewrite train_without_lora by done. apply Hmg. }
  destruct (merge_weights self) eqn:Hmw.
  2:{ rewrite train_noop by (by left). apply Htr. }
  destruct (decide (merged self = mode)) as [Hm|Hm].
  2:{ rewrite train_noop; [apply Htr|]. right. by destruct (merged self), mode. }
  pose proof (wf_lora _ Hwf) as HL. rewrite Hl in HL.
  destruct HL as (A & B & s & HA & HB & Hs & HAs & HBs).
  rewrite (train_with_lora mode self A B s) by done.
  destruct (conv1d A B) as [delta_w|e] eqn:Ec; simpl; [|apply Htr].
  destruct (iadd (weight self) _) as [W'|e] eqn:Ei; simpl; [|apply Htr].
  assert (m_cols W' = m_cols (weight self) ∧ m_nrows W' = m_nrows (weight self)
          ∧ mat_wf W') as (Hc & Hn & HW').
  { unfold iadd in Ei.
    destruct (expand_rows _ _ _) as [rows|] eqn:Ee; [|done].
    injection Ei as <-.
    apply expand_rows_shape in Ee as [Hlen Hall].
    2:{ eapply scale_shape, conv1d_shape; [apply HAs|done]. }
    pose proof (layer_wf_weight _ Hwf) as HWwf.
    unfold m_nrows, mat_wf in *. simpl. rewrite length_zip_with.
    split; [done|]. split; [lia|].
    apply Forall_lookup. intros i row. rewrite lookup_zip_with.
    intros (w & Ew & (d & Ed & [= <-])%bind_Some)%bind_Some.
    rewrite Forall_lookup in HWwf, Hall.
    rewrite vadd_length; rewrite (HWwf _ _ Ew); [done|].
    by rewrite (Hall _ _ Ed). }
  destruct Hwf as [HWs Hb HLo Hdr]. constructor; simpl; try done.
  unfold has_shape in *. rewrite Hc, Hn.
  destruct (fan_in_fan_out self);
    (split; [apply HWs|]; split; [apply HWs|done]).
Qed.

Lemma forward_set_training (b : bool) self x :
  lora_dropout self = None → forward (set_training b self) x = forward self x.
Proof.
  unfold forward, lora_branch, apply_dropout.
  destruct self; simpl. by intros ->.
Qed.

(** Merging does not change [forward]: on an unmerged layer with low-rank
    factors, no dropout and a weight stored untransposed, [forward] gives
    the same result before and after [train(False)]. *)
Lemma merge_transparent self x n :
  layer_wf self → has_lora self = true → fan_in_fan_out self = false →
  merged self = false → lora_dropout self = None →
  has_shape n (in_features self) x → 0 < n →
  forward (train false self).1 x = forward self x.
Proof.
  intros Hwf Hl Hf Hm Hd Hx Hn.
  destruct (merge_weights self) eqn:Hmw.
  2:{ rewrite train_noop by (by left). by apply forward_set_training. }
  pose proof (wf_lora _ Hwf) as HL. rewrite Hl in HL.
  destruct HL as (A & B & s & HA & HB & Hs & HAs & HBs).
  pose proof (wf_weight _ Hwf) as HWs. rewrite Hf in HWs.
  rewrite (train_with_lora false self A B s) by done.
  destruct (conv1d A B) as [delta_w|e] eqn:Ec; simpl;
    [|by apply forward_set_training].
  assert (0 < out_features self) as Ho.
  { unfold conv1d in Ec. case_match eqn:Eb; [|done].
    apply andb_true_iff in Eb as [_ Eb%bool_decide_eq_true].
    by rewrite (proj1 HBs) in Eb. }
  pose proof (conv1d_shape _ _ _ (proj2 (proj2 HAs)) Ec) as Hds.
  rewrite (proj1 HBs), (proj1 (proj2 HAs)) in Hds.
  pose proof (scale_shape rI s _ _ _ Hds) as Hds1.
  rewrite iadd_same_shape;
    [|by rewrite (proj1 Hds1), (proj1 HWs)
     |by rewrite (proj1 (proj2 Hds1)), (proj1 (proj2 HWs))].
  rewrite scale_rows.
  assert (m_rows delta_w =
            (λ kr, lincomb (in_features self) kr (m_rows A)) <$> m_rows B) as ->.
  { unfold conv1d in Ec. case_match; [|done]. injection Ec as <-. simpl.
    by rewrite (proj1 (proj2 HAs)). }
  rewrite (forward_unmerged self A B s x n) by done.
  unfold forward, T, apply_dropout. destruct self; simpl in *. subst.
  destruct HWs as (HWn & HWm & HWwf), HBs as (HBn & _), HAs as (_ & HAm & HAwf).
  unfold m_nrows, mat_wf in *. rewrite HWm in HWwf. rewrite HAm in HAwf.
  rewrite (linear_ok x _ _ n in_features0 out_features0);
    [|done| |by apply (wf_bias _ Hwf)].
  2:{ unfold has_shape, m_nrows, mat_wf. simpl.
      rewrite length_zip_with, !length_fmap. split; [lia|]. split; [done|].
      apply Forall_lookup. intros i row. rewrite lookup_zip_with.
      intros (w & Ew & (d & Ed & [= <-])%bind_Some)%bind_Some.
      rewrite !list_lookup_fmap in Ed.
      destruct (m_rows B !! i) as [kr|]; [|done]. injection Ed as <-.
      rewrite Forall_lookup in HWwf.
      rewrite vadd_length; rewrite (HWwf _ _ Ew); [congruence|].
      by rewrite length_fmap, lincomb_length. }
  simpl. f_equal. f_equal. rewrite zip_with_fmap_diag.
  apply list_fmap_ext. intros _ xr _. simpl.
  apply merged_row; [congruence|done|done].
Qed.

End Merge.

(** * Construction *)

Section Construction.

Context {R : Type} `{Scalar R}.
Implicit Types (a : @InitArgs R) (rnd : @Init R).

Lemma tabulate_shape n m (f : nat → nat → R) : has_shape n m (tabulate n m f).
Proof.
  unfold has_shape, m_nrows, mat_wf, tabulate. simpl.
  rewrite length_fmap, length_seq. repeat split.
  apply Forall_fmap, Forall_true. intros i. simpl.
  by rewrite length_fmap, length_seq.
Qed.

Lemma new_zeros_shape n m : has_shape n m (new_zeros (R := R) n m).
Proof.
  unfold has_shape, m_nrows, mat_wf, new_zeros. simpl.
  rewrite length_replicate. repeat split.
  apply Forall_replicate. by rewrite length_replicate.
Qed.

(** The three outcomes of [LoRALayerFull.__init__] on [lora_dropout]. *)
Lemma LoRALayerFull_dropout_cases (p : Q) (f : @Mat R → @Mat R) :
  ((p <= 0)%Q ∧ LoRALayerFull_dropout p f = Ok None) ∨
  ((0 < p)%Q ∧ (p <= 1)%Q ∧ LoRALayerFull_dropout p f = Ok (Some f)) ∨
  ((1 < p)%Q ∧ LoRALayerFull_dropout p f = Raise ValueError).
Proof.
  unfold LoRALayerFull_dropout, nn_Dropout.
  destruct (Qle_bool p 0) eqn:E0; simpl.
  { left. by apply Qle_bool_iff in E0. }
  assert (0 < p)%Q as Hp.
  { apply Qnot_le_lt. intros Hle. apply Qle_bool_iff in Hle. congruence. }
  assert (Qle_bool 0 p = true) as ->.
  { apply Qle_bool_iff. by apply Qlt_le_weak. }
  simpl. destruct (Qle_bool p 1) eqn:E1; simpl.
  - right. left. by apply Qle_bool_iff in E1.
  - right. right. split; [|done].
    apply Qnot_le_lt. intros Hle. apply Qle_bool_iff in Hle. congruence.
Qed.

Lemma negative_size (n m : Z) :
  bool_decide (n < 0)%Z || bool_decide (m < 0)%Z = false ↔ (0 ≤ n)%Z ∧ (0 ≤ m)%Z.
Proof.
  rewrite orb_false_iff, !bool_decide_eq_false. lia.
Qed.

(** The layer that [__init__] returns, and the arguments for which it
    returns one. *)
Lemma init_inv rnd a self :
  __init__ rnd a = Ok self →
  (0 ≤ arg_in_features a)%Z ∧ (0 ≤ arg_out_features a)%Z ∧
  (arg_lora_dropout a <= 1)%Q ∧
  length (arg_enable_lora a) ≠ 0 ∧
  (arg_out_features a `mod` Z.of_nat (length (arg_enable_lora a)))%Z = 0%Z ∧
  let n_in := Z.to_nat (arg_in_features a) in
  let n_out := Z.to_nat (arg_out_features a) in
  let W := tabulate n_out n_in (rand_weight rnd) in
  let has_lora := bool_decide (0 < arg_r a)%Z && any (arg_enable_lora a) in
  let rk := Z.to_nat (arg_r a) in
  self =
      mkLayer n_in n_out
        (if arg_fan_in_fan_out a then transpose W else W)
        (negb has_lora)
        (if arg_bias a then Some (rand_bias rnd <$> seq 0 n_out) else None)
        true (arg_r a) (arg_lora_alpha a)
        (if Qle_bool (arg_lora_dropout a) 0 then None else Some (arg_dropout a))
        false (arg_merge_weights a)
        (arg_enable_lora a) (arg_fan_in_fan_out a)
        (if has_lora then Some (tabulate rk n_in (rand_A rnd)) else None)
        (if has_lora then Some (new_zeros n_out rk) else None)
        (if has_lora then Some (true_div (arg_lora_alpha a) (arg_r a)) else None).
Proof.
  unfold __init__.
  destruct (bool_decide _ || bool_decide _) eqn:Es; [done|].
  apply negative_size in Es as [Hin Hout].
  destruct (LoRALayerFull_dropout_cases (arg_lora_dropout a) (arg_dropout a))
    as [(Hp & ->)|[(Hp0 & Hp & ->)|(Hp & ->)]];
    cbn [mbind result_bind]; [| |done].
  - case_bool_decide as Hlen; [done|]. case_bool_decide as Hmod; [|done].
    cbn [negb]. intros [= <-].
    split; [done|]. split; [done|].
    split; [by apply Qle_trans with 0%Q|]. split; [done|]. split; [done|].
    by rewrite (proj2 (Qle_bool_iff _ _) Hp).
  - case_bool_decide as Hlen; [done|]. case_bool_decide as Hmod; [|done].
    cbn [negb]. intros [= <-].
    split; [done|]. split; [done|]. split; [done|]. split; [done|].
    split; [done|].
    destruct (Qle_bool (arg_lora_dropout a) 0) eqn:E0; [|done].
    apply Qle_bool_iff in E0. by apply Qlt_not_le in Hp0.
Qed.

Lemma init_returns rnd a :
  (0 ≤ arg_in_features a)%Z → (0 ≤ arg_out_features a)%Z →
  (arg_lora_dropout a <= 1)%Q →
  length (arg_enable_lora a) ≠ 0 →
  (arg_out_features a `mod` Z.of_nat (length (arg_enable_lora a)))%Z = 0%Z →
  ∃ self, __init__ rnd a = Ok self.
Proof.
  intros Hin Hout Hp Hlen Hmod. unfold __init__.
  rewrite (proj2 (negative_size _ _)) by done.
  destruct (LoRALayerFull_dropout_cases (arg_lora_dropout a) (arg_dropout a))
    as [(_ & ->)|[(_ & _ & ->)|(Hp' & _)]];
    cbn [mbind result_bind].
  - rewrite bool_decide_eq_false_2, bool_decide_eq_true_2 by done. by eexists.
  - rewrite bool_decide_eq_false_2, bool_decide_eq_true_2 by done. by eexists.
  - by apply Qlt_not_le in Hp'.
Qed.

(** What [__init__] builds when it returns: an unmerged layer in training
    mode that satisfies the shape invariant. *)
Lemma init_ok rnd a self :
  (∀ x n m, has_shape n m x → has_shape n m (arg_dropout a x)) →
  __init__ rnd a = Ok self →
  layer_wf self ∧ merged self = false ∧ training self = true ∧
  r self = arg_r a ∧ enable_lora self = arg_enable_lora a ∧
  fan_in_fan_out self = arg_fan_in_fan_out a ∧
  merge_weights self = arg_merge_weights a ∧
  in_features self = Z.to_nat (arg_in_features a) ∧
  out_features self = Z.to_nat (arg_out_features a).
Proof.
  intros Hdrop (_ & _ & _ & _ & _ & ->)%init_inv. simpl.
  split; [constructor; simpl|done].
  - destruct (arg_fan_in_fan_out a);
      [apply transpose_shape|]; apply tabulate_shape.
  - intros b. destruct (arg_bias a); [|done]. intros [= <-].
    by rewrite length_fmap, length_seq.
  - unfold has_lora. simpl.
    destruct (bool_decide (0 < arg_r a)%Z && any (arg_enable_lora a)).
    + eexists _, _, _. repeat split; try apply tabulate_shape;
        apply new_zeros_shape.
    + done.
  - intros f x n m. destruct (Qle_bool _ _); [done|].
    intros [= <-]. apply Hdrop.
Qed.

(** The four ways in which [__init__] raises, in the order in which the
    code meets them. *)
Lemma init_raises rnd a (e : PyError) :
  __init__ rnd a = Raise e ↔
  (((arg_in_features a < 0)%Z ∨ (arg_out_features a < 0)%Z) ∧ e = RuntimeError) ∨
  ((0 ≤ arg_in_features a)%Z ∧ (0 ≤ arg_out_features a)%Z ∧
   (1 < arg_lora_dropout a)%Q ∧ e = ValueError) ∨
  ((0 ≤ arg_in_features a)%Z ∧ (0 ≤ arg_out_features a)%Z ∧
   (arg_lora_dropout a <= 1)%Q ∧
   length (arg_enable_lora a) = 0 ∧ e = ZeroDivisionError) ∨
  ((0 ≤ arg_in_features a)%Z ∧ (0 ≤ arg_out_features a)%Z ∧
   (arg_lora_dropout a <= 1)%Q ∧
   length (arg_enable_lora a) ≠ 0 ∧
   (arg_out_features a `mod` Z.of_nat (length (arg_enable_lora a)))%Z ≠ 0%Z ∧
   e = AssertionError).
Proof.
  unfold __init__.
  destruct (bool_decide _ || bool_decide _) eqn:Es.
  { apply orb_true_iff in Es. rewrite !bool_decide_eq_true in Es.
    split; [intros [= <-]; by left|].
    intros [[_ ->]|[(? & ? & _)|[(? & ? & _)|(? & ? & _)]]]; [done|lia..]. }
  apply negative_size in Es as [Hin Hout].
  assert (∀ p : Q, (p <= 1)%Q → (1 < p)%Q → False) as Hcontra.
  { intros p Hle Hlt. by apply Qlt_not_le in Hlt. }
  destruct (LoRALayerFull_dropout_cases (arg_lora_dropout a) (arg_dropout a))
    as [(Hp & ->)|[(Hp0 & Hp & ->)|(Hp & ->)]];
    cbn [mbind result_bind].
  3:{ split; [intros [= <-]; right; by left|].
      intros [[[?|?] _]|[(_ & _ & _ & ->)|[(_ & _ & ? & _)|(_ & _ & ? & _)]]];
        [lia|lia|done|by destruct (Hcontra (arg_lora_dropout a))..]. }
  1: assert (arg_lora_dropout a <= 1)%Q as Hp1 by (by apply Qle_trans with 0%Q).
  2: pose proof Hp as Hp1.
  all: case_bool_decide as Hlen;
    [split; [intros [= <-]; right; right; by left|];
     intros [[[?|?] _]|[(_ & _ & ? & _)|[(_ & _ & _ & _ & ->)|(_ & _ & _ & ? & _)]]];
       [lia|lia|by destruct (Hcontra (arg_lora_dropout a))|done|done]|].
  all: case_bool_decide as Hmod; cbn [negb];
    [split; [done|];
     intros [[[?|?] _]|[(_ & _ & ? & _)|[(_ & _ & _ & ? & _)|(_ & _ & _ & _ & ? & _)]]];
       [lia|lia|by destruct (Hcontra (arg_lora_dropout a))|done|done]
    |split; [intros [= <-]; right; right; by right|];
     intros [[[?|?] _]|[(_ & _ & ? & _)|[(_ & _ & _ & ? & _)|(_ & _ & _ & _ & _ & ->)]]];
       [lia|lia|by destruct (Hcontra (arg_lora_dropout a))|done|done]].
Qed.

End Construction.

(** * The layers of the examples *)

Lemma ex_square_wf (fifo : bool) : layer_wf (ex_square fifo).
Proof. destruct fifo; solve_layer_wf. Defined.


Lemma ex_eye_shape : has_shape 2 2 ex_eye.
Proof. solve_shape. Defined.


(** C1 fails on a layer built with [fan_in_fan_out=True]: [train(False)]
    adds the update to the stored weight without transposing it, and
    [forward] gives [[0, 1], [0, 0]] before the call and [[0, 0], [1, 0]]
    after it. *)
Theorem merge_changes_forward_when_transposed :
  layer_wf (ex_square true) ∧
  (0 < r (ex_square true))%Z ∧ any (enable_lora (ex_square true)) = true ∧
  lora_dropout (ex_square true) = None ∧
  merged (ex_square true) = false ∧
  (train false (ex_square true)).2 = None ∧
  merged (train false (ex_square true)).1 = true ∧
  forward (ex_square true) ex_eye = Ok (mkMat 2 [[0; 1]; [0; 0]]%Z) ∧
  forward (train false (ex_square true)).1 ex_eye = Ok (mkMat 2 [[0; 0]; [1; 0]]%Z).
Proof. split; [apply ex_square_wf|]. repeat split. Qed.

Lemma merge_transparent_example :
  forward (train false (ex_square false)).1 ex_eye = forward (ex_square false) ex_eye.
Proof.
  apply (merge_transparent (ex_square false) ex_eye 2);
    [apply ex_square_wf | reflexivity | reflexivity | reflexivity | reflexivity
    | apply ex_eye_shape | lia].
Defined.



(** C6 fails at rank one with the default [enable_lora=[False]]:
    [__init__] creates no [lora_A], which [forward] then reads. *)
Theorem forward_raises_without_partitions :
  __init__ ex_rnd (ex_args 1 1 1 [false] false) = Ok ex_disabled ∧
  (0 < r ex_disabled)%Z ∧ any (enable_lora ex_disabled) = false ∧
  merged ex_disabled = false ∧
  linear ex_one (T ex_disabled (weight ex_disabled)) (bias ex_disabled)
    = Ok (mkMat 1 [[0%Z]]) ∧
  forward ex_disabled ex_one = Raise AttributeError.
Proof. repeat split. Qed.

(** * The [lora] scope *)

Section ScopeFacts.

Context {F : Type}.
Implicit Types (g : @Globals F) (cfg : @LoRAConfig F).

(** The exits of the scope: when the body of an enabled scope returns, the
    class that [llama.CausalSelfAttention] named on entry is restored and
    [lora_config] is cleared, whatever the body did; when the body raises,
    the exception leaves the scope and the globals stay as the body left
    them; a disabled scope is the body alone. *)
Theorem lora_scope_exit cfg (body : Globals → Globals * option PyError) g :
  (∀ g2, body (lora_enter cfg true g).1 = (g2, None) →
     with_lora cfg true body g
       = (mkGlobals (llama_CausalSelfAttention g) None, None)) ∧
  (∀ g2 e, body (lora_enter cfg true g).1 = (g2, Some e) →
     with_lora cfg true body g = (g2, Some e)) ∧
  (lora_enter cfg true g).1 = mkGlobals LoraCausalSelfAttention (Some cfg) ∧
  with_lora cfg false body g = body g.
Proof.
  unfold with_lora. simpl. repeat split.
  - by intros g2 ->.
  - by intros g2 e ->.
  - destruct (body g) as [g2 [e|]]; done.
Qed.

End ScopeFacts.

Lemma lora_scope_exit_witness :
  with_lora ex_cfg true ex_body ex_globals = (ex_globals, None).
Proof.
  apply (proj1 (lora_scope_exit ex_cfg ex_body ex_globals)
           (mkGlobals LoraCausalSelfAttention (Some ex_cfg))).
  reflexivity.
Defined.

(** C7 fails on a body that raises: the exception leaves the generator at
    its [yield], before the two assignments that restore, and the scope is
    left with [llama.CausalSelfAttention] still naming the class of this
    file and with [lora_config] still set. *)
Lemma lora_scope_not_restored_on_exception :
  with_lora ex_cfg true ex_failing_body ex_globals
    = (mkGlobals LoraCausalSelfAttention (Some ex_cfg), Some RuntimeError) ∧
  llama_CausalSelfAttention ex_globals = LlamaCausalSelfAttention ∧
  LoraCausalSelfAttention ≠ LlamaCausalSelfAttention ∧
  Some ex_cfg ≠ None.
Proof. repeat split; done. Qed.

(** * [mark_only_lora_as_trainable] *)

Lemma named_parameters_set_requires_grad (sel : string → bool) (b : bool)
    (model : Model) :
  named_parameters (set_requires_grad sel b model)
    = (λ p, (p.1, if sel p.1 then b else p.2)) <$> named_parameters model.
Proof.
  unfold named_parameters, set_requires_grad.
  induction model as [|m model IH]; [done|]. csimpl. rewrite IH, fmap_app.
  f_equal. rewrite <- !list_fmap_compose. by apply list_fmap_ext.
Qed.

(** C9, as the code has it: with the policy ["none"] the call returns,
    every parameter whose name lacks ["lora_"] is frozen, and every
    parameter whose name has it keeps its flag. *)
Theorem mark_only_lora_none (model : Model) :
  (mark_only_lora_as_trainable model "none").2 = None ∧
  named_parameters (mark_only_lora_as_trainable model "none").1
    = (λ p, (p.1, if str_contains "lora_" p.1 then p.2 else false))
        <$> named_parameters model.
Proof.
  unfold mark_only_lora_as_trainable. simpl. split; [done|].
  rewrite named_parameters_set_requires_grad. apply list_fmap_ext.
  intros _ [n g] _. simpl. by destruct (str_contains "lora_" n).
Qed.

(** C9 as stated fails: a low-rank factor that was frozen before the call
    is still frozen after it. *)
Lemma frozen_factor_stays_frozen :
  named_parameters ex_model = [("c_attn.weight", true); ("c_attn.lora_A", false)] ∧
  mark_only_lora_as_trainable ex_model "none"
    = ([mkModule "c_attn" true [("weight", false); ("lora_A", false)]], None) ∧
  str_contains "lora_" "c_attn.lora_A" = true.
Proof. repeat split. Qed.

(** * [lora_state_dict] *)


Lemma str_contains_cons (sub : string) c (s : string) :
  str_contains sub (String c s)
    = String.prefix sub (String c s) || str_contains sub s.
Proof. done. Qed.





Section StateDictFacts.

Context {V : Type}.
Implicit Types (full m d : gmap string V).

(** What the loop of the [lora_only] branch has stored after the keys of
    [m], a part of the state dict [full]. *)
Lemma lora_only_fold full m :
  m ⊆ full →
  ∀ k v,
    map_fold (lora_only_step full) ∅ m !! k = Some v ↔
    full !! k = Some v ∧
    ((str_contains "lora_" k = true ∧ is_Some (m !! k)) ∨
     ∃ k0, is_Some (m !! k0) ∧ str_contains "lora_" k0 = true ∧ k = bias_name k0).
Proof.
  apply (map_fold_weak_ind
           (λ r m, m ⊆ full → ∀ k v,
              r !! k = Some v ↔
              full !! k = Some v ∧
              ((str_contains "lora_" k = true ∧ is_Some (m !! k)) ∨
               ∃ k0, is_Some (m !! k0) ∧ str_contains "lora_" k0 = true
                     ∧ k = bias_name k0))).
  - intros _ k v. rewrite lookup_empty. split; [done|].
    intros (_ & [[_ Hk]|(k0 & Hk & _)]); try rewrite lookup_empty in Hk;
      by apply is_Some_None in Hk.
  - intros i x m' r Hi IH Hsub k v.
    assert (m' ⊆ full) as Hsub'.
    { etrans; [|done]. by apply insert_subseteq. }
    assert (full !! i = Some x) as Hfi.
    { eapply lookup_weaken; [apply lookup_insert_eq|done]. }
    specialize (IH Hsub'). unfold lora_only_step.
    setoid_rewrite lookup_insert_is_Some'.
    destruct (str_contains "lora_" i) eqn:Ei.
    + destruct (full !! bias_name i) as [b|] eqn:Eb.
      * rewrite !lookup_insert_Some, IH. split.
        -- intros [[<- <-]|(Hbk & [[<- <-]|(Hik & Hk & HQ)])].
           ++ split; [done|]. right. exists i. eauto.
           ++ split; [done|]. left. eauto.
           ++ split; [done|].
              destruct HQ as [[? ?]|(k0 & ? & ? & ?)]; [left|right]; eauto.
        -- intros (Hk & HAB).
           destruct (decide (bias_name i = k)) as [Hbk|Hbk].
           { left. split; [done|]. congruence. }
           right. split; [done|].
           destruct (decide (i = k)) as [Hik|Hik].
           { left. split; [done|]. congruence. }
           right. split; [done|]. split; [done|].
           destruct HAB as [[? [?|?]]|(k0 & [?|?] & ? & ?)];
             [done | left; eauto | by subst | right; eauto].
      * rewrite lookup_insert_Some, IH. split.
        -- intros [[<- <-]|(Hik & Hk & HQ)].
           ++ split; [done|]. left. eauto.
           ++ split; [done|].
              destruct HQ as [[? ?]|(k0 & ? & ? & ?)]; [left|right]; eauto.
        -- intros (Hk & HAB).
           destruct (decide (i = k)) as [Hik|Hik].
           { left. split; [done|]. congruence. }
           right. split; [done|]. split; [done|].
           destruct HAB as [[? [?|?]]|(k0 & [?|?] & ? & ?)];
             [done | left; eauto | subst; congruence | right; eauto].
    + rewrite IH. split.
      * intros (Hk & HQ). split; [done|].
        destruct HQ as [[? ?]|(k0 & ? & ? & ?)]; [left|right]; eauto.
      * intros (Hk & HAB). split; [done|].
        destruct HAB as [[? [?|?]]|(k0 & [?|?] & ? & ?)];
          [subst; congruence | left; eauto | subst; congruence | right; eauto].
Qed.


End StateDictFacts.



(** * Rejected configurations *)

Section Config.

Context {R : Type} `{Scalar R} {V : Type}.

Lemma known_policy_cases (bias : string) :
  known_policy bias ↔
  bool_decide (bias = "none") || bool_decide (bias = "all")
    || bool_decide (bias = "lora_only") = true.
Proof.
  unfold known_policy. rewrite !orb_true_iff, !bool_decide_eq_true. tauto.
Qed.

(** C8, as the code has it: [__init__] raises [AssertionError] when the
    length of [enable_lora] is not zero and does not divide [out_features];
    it raises in three more cases, [RuntimeError] for a negative size,
    [ValueError] for a [lora_dropout] above 1 and [ZeroDivisionError] for an
    empty [enable_lora], each one before the next, and it returns
    otherwise; the two filters raise [NotImplementedError] on a [bias]
    other than ["none"], ["all"] and ["lora_only"], and return otherwise. *)
Theorem configuration_errors :
  (∀ (rnd : @Init R) a (e : PyError),
     __init__ rnd a = Raise e ↔
     (((arg_in_features a < 0)%Z ∨ (arg_out_features a < 0)%Z)
      ∧ e = RuntimeError) ∨
     ((0 ≤ arg_in_features a)%Z ∧ (0 ≤ arg_out_features a)%Z ∧
      (1 < arg_lora_dropout a)%Q ∧ e = ValueError) ∨
     ((0 ≤ arg_in_features a)%Z ∧ (0 ≤ arg_out_features a)%Z ∧
      (arg_lora_dropout a <= 1)%Q ∧
      length (arg_enable_lora a) = 0 ∧ e = ZeroDivisionError) ∨
     ((0 ≤ arg_in_features a)%Z ∧ (0 ≤ arg_out_features a)%Z ∧
      (arg_lora_dropout a <= 1)%Q ∧
      length (arg_enable_lora a) ≠ 0 ∧
      (arg_out_features a `mod` Z.of_nat (length (arg_enable_lora a)))%Z ≠ 0%Z ∧
      e = AssertionError)) ∧
  (∀ (rnd : @Init R) a,
     (0 ≤ arg_in_features a)%Z → (0 ≤ arg_out_features a)%Z →
     (arg_lora_dropout a <= 1)%Q →
     length (arg_enable_lora a) ≠ 0 →
     (arg_out_features a `mod` Z.of_nat (length (arg_enable_lora a)))%Z = 0%Z →
     ∃ self, __init__ rnd a = Ok self) ∧
  (∀ model bias,
     ¬ known_policy bias →
     (mark_only_lora_as_trainable model bias).2 = Some NotImplementedError) ∧
  (∀ model bias,
     known_policy bias → (mark_only_lora_as_trainable model bias).2 = None) ∧
  (∀ (full : gmap string V) bias,
     ¬ known_policy bias → lora_state_dict full bias = Raise NotImplementedError) ∧
  (∀ (full : gmap string V) bias,
     known_policy bias → ∃ d, lora_state_dict full bias = Ok d).
Proof.
  split; [intros rnd a e; apply init_raises|].
  split; [intros rnd a; apply init_returns|].
  repeat split.
  - intros model bias Hk. unfold mark_only_lora_as_trainable.
    rewrite known_policy_cases in Hk. by repeat case_bool_decide.
  - intros model bias Hk. unfold mark_only_lora_as_trainable.
    rewrite known_policy_cases in Hk. by repeat case_bool_decide.
  - intros full bias Hk. unfold lora_state_dict.
    rewrite known_policy_cases in Hk. by repeat case_bool_decide.
  - intros full bias Hk. unfold lora_state_dict.
    rewrite known_policy_cases in Hk. repeat case_bool_decide; eauto. done.
Qed.

End Config.

Lemma configuration_errors_witness :
  ∃ self, __init__ ex_rnd (ex_args 2 9 1 [true; false; true] false) = Ok self.
Proof.
  apply (proj1 (proj2 (configuration_errors (R := Z) (V := nat))) ex_rnd
           (ex_args 2 9 1 [true; false; true] false));
    [simpl; lia | simpl; lia | vm_compute; discriminate | simpl; lia
    | reflexivity].
Defined.

(** C8 as stated fails: with an empty [enable_lora] the constructor fails
    with [ZeroDivisionError], which is not one of the two errors that the
    code raises for a rejected configuration; it does so even when
    [out_features] is zero, which the length zero divides. *)
Lemma empty_enable_lora_divides_by_zero :
  __init__ ex_rnd (ex_args 1 1 0 [] false) = Raise ZeroDivisionError ∧
  __init__ ex_rnd (ex_args 1 0 0 [] false) = Raise ZeroDivisionError ∧
  (Z.of_nat 0 | Z.of_nat 0)%Z ∧
  ¬ ConfigurationError ZeroDivisionError.
Proof.
  split; [done|]. split; [done|]. split; [by exists 0%Z|]. by intros [?|?].
Qed.

(** * Sequences of [train] calls *)

Section TrainCalls.

Context {R : Type} `{ScalarLaws R}.
Implicit Types (self : @Layer R) (A B W D x : @Mat R).

Add Ring Rring_calls : (scalar_ring : ring_theory rO rI radd rmul rsub ropp (@eq R)).

(** [train] does not read the mode the layer is in. *)
Lemma train_set_training (mode b : bool) self :
  train mode (set_training b self) = train mode self.
Proof. by destruct self. Qed.

(** What [train] leaves alone. *)
Lemma train_frame (mode : bool) self :
  training (train mode self).1 = mode ∧
  in_features (train mode self).1 = in_features self ∧
  out_features (train mode self).1 = out_features self ∧
  weight_requires_grad (train mode self).1 = weight_requires_grad self ∧
  bias (train mode self).1 = bias self ∧
  r (train mode self).1 = r self ∧
  lora_alpha (train mode self).1 = lora_alpha self ∧
  lora_dropout (train mode self).1 = lora_dropout self ∧
  merge_weights (train mode self).1 = merge_weights self ∧
  enable_lora (train mode self).1 = enable_lora self ∧
  fan_in_fan_out (train mode self).1 = fan_in_fan_out self ∧
  lora_A (train mode self).1 = lora_A self ∧
  lora_B (train mode self).1 = lora_B self ∧
  scaling (train mode self).1 = scaling self.
Proof.
  unfold train.
  destruct self as [? ? W ? ? ? rk ? ? mg mw en ? A B s]; simpl.
  destruct (mw && _); [|done].
  destruct (bool_decide (0 < rk)%Z && any en); [|done].
  by match goal with
     | |- context [match ?x with Ok _ => _ | Raise _ => _ end] => destruct x
     end.
Qed.

Lemma merge_safe_train (mode : bool) self :
  merge_safe self → merge_safe (train mode self).1.
Proof.
  unfold merge_safe, has_lora.
  destruct (train_frame mode self)
    as (_ & -> & -> & _ & _ & -> & _ & _ & -> & -> & -> & _).
  done.
Qed.

(** A call of [train] on a safe layer returns, and a call that follows it
    ends as if the first call had not been made. *)
Lemma train_absorbs (m1 m2 : bool) self :
  layer_wf self → merge_safe self →
  (train m1 self).2 = None ∧ train m2 (train m1 self).1 = train m2 self.
Proof.
  intros Hwf Hsafe.
  destruct (has_lora self) eqn:Hl.
  2:{ rewrite (train_without_lora m1) by done. split; [done|].
      rewrite !train_without_lora by (by destruct self).
      destruct self as [? ? ? ? ? ? ? ? ? ? mw]; simpl. by destruct mw. }
  destruct (merge_weights self) eqn:Hmw.
  2:{ rewrite (train_noop m1) by (by left). split; [done|].
      apply train_set_training. }
  destruct (decide (merged self = m1)) as [Hm|Hm].
  2:{ rewrite (train_noop m1) by (right; by destruct (merged self), m1).
      split; [done|]. apply train_set_training. }
  destruct Hsafe as [?|[?|(Hf & Hi & Ho)]]; [congruence..|].
  pose proof (wf_lora _ Hwf) as HL. rewrite Hl in HL.
  destruct HL as (A & B & s & HA & HB & Hs & HAs & HBs).
  pose proof (wf_weight _ Hwf) as HWs. rewrite Hf in HWs.
  rewrite (train_with_lora m1 self A B s) by done.
  destruct (conv1d_ok A B _ _ _ HAs HBs Hi Ho) as (delta_w & Ec & Hd).
  rewrite Ec. simpl.
  set (sign1 := if m1 then ropp rI else rI).
  pose proof (scale_shape sign1 s _ _ _ Hd) as Hd1.
  assert (iadd (weight self) (scale_r (scale_l sign1 delta_w) s) =
          Ok (mkMat (m_cols (weight self))
                (zip_with vadd (m_rows (weight self))
                   (m_rows (scale_r (scale_l sign1 delta_w) s))))) as Hadd.
  { apply iadd_same_shape.
    - by rewrite (proj1 Hd1), (proj1 HWs).
    - by rewrite (proj1 (proj2 Hd1)), (proj1 (proj2 HWs)). }
  rewrite Hadd. cbn [fst snd]. split; [done|].
  destruct (decide (m2 = m1)) as [->|Hm2].
  { rewrite train_noop by (right; by destruct self).
    rewrite (train_with_lora m1 self A B s) by done.
    rewrite Ec. simpl. fold sign1. rewrite Hadd. by destruct self. }
  assert (m2 = negb m1) as -> by (by destruct m1, m2).
  rewrite (train_with_lora (negb m1) _ A B s) by (by destruct self).
  rewrite Ec. simpl.
  rewrite (iadd_fmap_cancel (λ e, rmul (rmul sign1 e) s)
             (λ e, rmul (rmul (if negb m1 then ropp rI else rI) e) s)
             (weight self) delta_w
             (scale_r (scale_l sign1 delta_w) s)
             (scale_r (scale_l (if negb m1 then ropp rI else rI) delta_w) s));
    simpl; try done.
  - rewrite train_noop by (right; by rewrite negb_involutive).
    destruct self; simpl in *. subst. by rewrite negb_involutive.
  - intros a e. subst sign1. destruct m1; simpl; ring.
  - by apply layer_wf_weight.
  - apply Hd.
  - apply scale_rows.
  - apply scale_rows.
Qed.

(** On a safe layer, a sequence of calls of [train] returns and leaves the
    layer as its last call alone would: the weight never receives the
    update twice and never loses it. *)
Theorem train_all_last_call (modes : list bool) (mode : bool) self :
  layer_wf self → merge_safe self →
  train_all (modes ++ [mode]) self = train mode self.
Proof.
  revert self. induction modes as [|m modes IH]; intros self Hwf Hsafe; simpl.
  - unfold seq_call. by destruct (train mode self) as [self' [e|]].
  - unfold seq_call.
    destruct (train_absorbs m mode self Hwf Hsafe) as [He Habs].
    destruct (train m self) as [self' e] eqn:E. simpl in *. subst e.
    assert (self' = (train m self).1) as -> by (by rewrite E).
    rewrite IH; [done| by apply train_wf | by apply merge_safe_train].
Qed.


(** Merging adds [scaling * (lora_B · lora_A)] to the weight: on a layer
    that merges, with an untransposed weight that has rows and columns,
    [train(False)] returns, sets [merged], and entry (j, i) of the weight
    grows by row [j] of [lora_B] times column [i] of [lora_A], times
    [scaling]. *)
Theorem merged_weight_entries self A B (s : R) :
  layer_wf self →
  lora_A self = Some A → lora_B self = Some B → scaling self = Some s →
  has_lora self = true → merge_weights self = true → merged self = false →
  fan_in_fan_out self = false →
  0 < in_features self → 0 < out_features self →
  (train false self).2 = None ∧
  merged (train false self).1 = true ∧
  ∀ j i, j < out_features self → i < in_features self →
    ∃ w Bj,
      entry (weight self) j i = Some w ∧
      m_rows B !! j = Some Bj ∧
      entry (weight (train false self).1) j i =
        Some (radd w (rmul (rmul rI (dot Bj ((λ Ak, nth i Ak rO) <$> m_rows A))) s)).
Proof.
  intros Hwf HA HB Hs Hl Hmw Hm Hf Hi Ho.
  pose proof (wf_lora _ Hwf) as HL. rewrite Hl, HA, HB, Hs in HL.
  destruct HL as (A' & B' & s' & [= <-] & [= <-] & [= <-] & HAs & HBs).
  pose proof (wf_weight _ Hwf) as HWs. rewrite Hf in HWs.
  rewrite (train_with_lora false self A B s) by done.
  destruct (conv1d_ok A B _ _ _ HAs HBs Hi Ho) as (delta_w & Ec & Hd).
  rewrite Ec. simpl.
  pose proof (scale_shape rI s _ _ _ Hd) as Hd1.
  rewrite iadd_same_shape;
    [|by rewrite (proj1 Hd1), (proj1 HWs)
     |by rewrite (proj1 (proj2 Hd1)), (proj1 (proj2 HWs))].
  cbn [fst snd]. split; [done|]. split; [by destruct self|].
  intros j i Hj Hii.
  destruct HWs as (HWn & HWm & HWwf), HBs as (HBn & HBm & HBwf),
    HAs as (HAn & HAm & HAwf).
  unfold m_nrows, mat_wf in *.
  destruct (lookup_lt_is_Some_2 (m_rows (weight self)) j) as [wj Ewj]; [lia|].
  destruct (lookup_lt_is_Some_2 (m_rows B) j) as [Bj EBj]; [lia|].
  destruct (lookup_lt_is_Some_2 wj i) as [w Ew].
  { rewrite Forall_lookup in HWwf. rewrite (HWwf _ _ Ewj). lia. }
  exists w, Bj. split; [|split; [done|]].
  { unfold entry. by rewrite Ewj. }
  assert (m_rows delta_w = (λ kr, lincomb (in_features self) kr (m_rows A))
                             <$> m_rows B) as Ed.
  { unfold conv1d in Ec. case_match; [|done]. injection Ec as <-. simpl.
    by rewrite HAm. }
  rewrite scale_rows, Ed. unfold entry.
  destruct self; simpl in *.
  rewrite lookup_zip_with, Ewj. simpl.
  rewrite !list_lookup_fmap, EBj. simpl.
  unfold vadd. rewrite lookup_zip_with, Ew. simpl.
  rewrite list_lookup_fmap, (lincomb_lookup _ Bj _ i); [done| |done].
  by rewrite <- HAm.
Qed.

End TrainCalls.

(** * The round trip, whatever the arithmetic *)

Section RoundTrip.

Context {R : Type} `{Scalar R}.
Implicit Types (self : @Layer R) (A B W D x : @Mat R).

Lemma seq_call_returns (f g : @Method R) self :
  (f self).2 = None → seq_call f g self = g (f self).1.
Proof. unfold seq_call. destruct (f self) as [self' e]. simpl. by intros ->. Qed.

(** The call of [train] that merges ([mode] false) or unmerges ([mode]
    true): entry (j, i) of the weight receives row [j] of [lora_B] times
    column [i] of [lora_A], times the sign, times [scaling]. *)
Lemma train_switch_entries (mode : bool) self A B (s : R) :
  layer_wf self →
  lora_A self = Some A → lora_B self = Some B → scaling self = Some s →
  has_lora self = true → merge_weights self = true → merged self = mode →
  fan_in_fan_out self = false →
  0 < in_features self → 0 < out_features self →
  (train mode self).2 = None ∧
  merged (train mode self).1 = negb mode ∧
  ∀ j i, j < out_features self → i < in_features self →
    ∃ w Bj,
      entry (weight self) j i = Some w ∧
      m_rows B !! j = Some Bj ∧
      entry (weight (train mode self).1) j i =
        Some (radd w (rmul (rmul (if mode then ropp rI else rI)
                              (dot Bj ((λ Ak, nth i Ak rO) <$> m_rows A))) s)).
Proof.
  intros Hwf HA HB Hs Hl Hmw Hm Hf Hi Ho.
  pose proof (wf_lora _ Hwf) as HL. rewrite Hl, HA, HB, Hs in HL.
  destruct HL as (A' & B' & s' & [= <-] & [= <-] & [= <-] & HAs & HBs).
  pose proof (wf_weight _ Hwf) as HWs. rewrite Hf in HWs.
  rewrite (train_with_lora mode self A B s) by done.
  destruct (conv1d_ok A B _ _ _ HAs HBs Hi Ho) as (delta_w & Ec & Hd).
  rewrite Ec. simpl.
  pose proof (scale_shape (if mode then ropp rI else rI) s _ _ _ Hd) as Hd1.
  rewrite iadd_same_shape;
    [|by rewrite (proj1 Hd1), (proj1 HWs)
     |by rewrite (proj1 (proj2 Hd1)), (proj1 (proj2 HWs))].
  cbn [fst snd]. split; [done|]. split; [by destruct self|].
  clear Hd1. intros j i Hj Hii.
  destruct HWs as (HWn & HWm & HWwf), HBs as (HBn & HBm & HBwf),
    HAs as (HAn & HAm & HAwf).
  unfold m_nrows, mat_wf in *.
  destruct (lookup_lt_is_Some_2 (m_rows (weight self)) j) as [wj Ewj]; [lia|].
  destruct (lookup_lt_is_Some_2 (m_rows B) j) as [Bj EBj]; [lia|].
  destruct (lookup_lt_is_Some_2 wj i) as [w Ew].
  { rewrite Forall_lookup in HWwf. rewrite (HWwf _ _ Ewj). lia. }
  exists w, Bj. split; [|split; [done|]].
  { unfold entry. by rewrite Ewj. }
  assert (m_rows delta_w = (λ kr, lincomb (in_features self) kr (m_rows A))
                             <$> m_rows B) as Ed.
  { unfold conv1d in Ec. case_match; [|done]. injection Ec as <-. simpl.
    by rewrite HAm. }
  rewrite scale_rows, Ed. unfold entry.
  destruct self; simpl in *.
  rewrite lookup_zip_with, Ewj. simpl.
  rewrite !list_lookup_fmap, EBj. simpl.
  unfold vadd. rewrite lookup_zip_with, Ew. simpl.
  rewrite list_lookup_fmap, (lincomb_lookup _ Bj _ i); [done| |done].
  by rewrite <- HAm.
Qed.

(** C3, as the code has it.  From an unmerged layer, [train(False)]
    followed by [train(True)] restores the weight exactly in exact
    arithmetic.  Whatever the arithmetic, on a layer that merges, with a
    weight stored untransposed that has rows and columns, the two calls
    return and leave the layer unmerged, and entry (j, i) of the weight is
    [(w + (1 * d) * scaling) + ((-1) * d) * scaling], where [w] is the
    entry before the calls and [d] is row [j] of [lora_B] times column [i]
    of [lora_A]: with floating-point numbers this is [w] up to the rounding
    of the two sums. *)
Theorem merge_unmerge_roundtrip_entries self :
  layer_wf self → merged self = false →
  (ScalarLaws R →
   weight (seq_call (train false) (train true) self).1 = weight self ∧
   merged (seq_call (train false) (train true) self).1 = false ∧
   (fan_in_fan_out self = false →
    0 < in_features self → 0 < out_features self →
    (train false self).2 = None ∧
    merged (train false self).1 = merge_weights self ∧
    (seq_call (train false) (train true) self).2 = None)) ∧
  (∀ A B (s : R),
     lora_A self = Some A → lora_B self = Some B → scaling self = Some s →
     has_lora self = true → merge_weights self = true →
     fan_in_fan_out self = false →
     0 < in_features self → 0 < out_features self →
     (seq_call (train false) (train true) self).2 = None ∧
     merged (seq_call (train false) (train true) self).1 = false ∧
     ∀ j i, j < out_features self → i < in_features self →
       ∃ w Bj,
         entry (weight self) j i = Some w ∧
         m_rows B !! j = Some Bj ∧
         entry (weight (seq_call (train false) (train true) self).1) j i =
           Some (radd
                   (radd w
                      (rmul (rmul rI
                               (dot Bj ((λ Ak, nth i Ak rO) <$> m_rows A))) s))
                   (rmul (rmul (ropp rI)
                            (dot Bj ((λ Ak, nth i Ak rO) <$> m_rows A))) s))).
Proof.
  intros Hwf Hm. split.
  { intros Hlaws. by apply merge_unmerge_roundtrip. }
  intros A B s HA HB Hs Hl Hmw Hf Hi Ho.
  destruct (train_switch_entries false self A B s)
    as (He1 & Hm1 & Hent1); try done.
  rewrite seq_call_returns by done.
  destruct (train_frame false self)
    as (_ & Hin & Hout & _ & _ & Hr & _ & _ & Hmw1 & Hen & Hf1 & HA1 & HB1 & Hs1).
  simpl in Hm1.
  assert (has_lora (train false self).1 = true) as Hl1.
  { unfold has_lora in *. by rewrite Hr, Hen. }
  destruct (train_switch_entries true (train false self).1 A B s
              (train_wf false self Hwf))
    as (He2 & Hm2 & Hent2);
    [congruence | congruence | congruence | done | congruence | done
    | congruence | lia | lia |].
  split; [done|]. split; [done|].
  intros j i Hj Hii.
  destruct (Hent1 j i Hj Hii) as (w & Bj & Hw & HBj & Hw1).
  destruct (Hent2 j i) as (w1 & Bj' & Hw1' & HBj' & Hw2); [lia|lia|].
  exists w, Bj. split; [done|]. split; [done|].
  rewrite Hw2. congruence.
Qed.

End RoundTrip.

Lemma ex_float_layer_wf : layer_wf ex_float_layer.
Proof. solve_layer_wf. Defined.

Lemma merge_unmerge_roundtrip_entries_witness :
  (seq_call (train false) (train true) ex_float_layer).2 = None ∧
  merged (seq_call (train false) (train true) ex_float_layer).1 = false ∧
  ∀ j i, j < 1 → i < 1 →
    ∃ w Bj,
      entry (weight ex_float_layer) j i = Some w ∧
      [[1%float]] !! j = Some Bj ∧
      entry (weight (seq_call (train false) (train true) ex_float_layer).1) j i =
        Some (PrimFloat.add
                (PrimFloat.add w
                   (PrimFloat.mul
                      (PrimFloat.mul 1%float
                         (dot Bj ((λ Ak, nth i Ak 0%float) <$> [[1%float]])))
                      1%float))
                (PrimFloat.mul
                   (PrimFloat.mul (PrimFloat.opp 1%float)
                      (dot Bj ((λ Ak, nth i Ak 0%float) <$> [[1%float]])))
                   1%float)).
Proof.
  refine (proj2 (merge_unmerge_roundtrip_entries ex_float_layer
                   ex_float_layer_wf eq_refl)
            (mkMat 1 [[1%float]]) (mkMat 1 [[1%float]]) 1%float
            _ _ _ _ _ _ _ _);
    [reflexivity | reflexivity | reflexivity | reflexivity | reflexivity
    | reflexivity | simpl; lia | simpl; lia].
Defined.

(** C3 as stated fails on floating-point tensors: from the weight 2^53,
    with [lora_A], [lora_B] and [scaling] equal to one, [train(False)]
    gives 2^53 + 1, which rounds to 2^53, and [train(True)] then gives
    2^53 - 1: the weight is not restored. *)
Lemma roundtrip_inexact_on_floats :
  layer_wf ex_float_layer ∧ merged ex_float_layer = false ∧
  (seq_call (train false) (train true) ex_float_layer).2 = None ∧
  weight (train false ex_float_layer).1 = mkMat 1 [[9007199254740992%float]] ∧
  weight (seq_call (train false) (train true) ex_float_layer).1
    = mkMat 1 [[9007199254740991%float]] ∧
  weight (seq_call (train false) (train true) ex_float_layer).1
    ≠ weight ex_float_layer.
Proof.
  split; [apply ex_float_layer_wf|]. split; [done|].
  split; [by vm_compute|]. split; [by vm_compute|]. split; [by vm_compute|].
  intros Heq.
  apply (f_equal (λ W, match m_rows W with
                       | [[w]] => PrimFloat.eqb w 9007199254740992%float
                       | _ => true
                       end)) in Heq.
  vm_compute in Heq. discriminate.
Qed.

(** * Results of [forward] *)

Section ForwardResults.

Context {R : Type} `{ScalarLaws R}.
Implicit Types (self : @Layer R) (A B W D x : @Mat R) (u v : list R).

Add Ring Rring_forward : (scalar_ring : ring_theory rO rI radd rmul rsub ropp (@eq R)).

Lemma projection_shape x W (bias : option (list R)) n m :
  m_nrows x = n → m_nrows W = m →
  (∀ b, bias = Some b → length b = m) →
  has_shape n m
    (mkMat m ((λ xr, add_bias bias ((λ wr, dot xr wr) <$> m_rows W))
                <$> m_rows x)).
Proof.
  intros Hn Hm Hb. unfold has_shape, m_nrows, mat_wf in *. simpl.
  rewrite length_fmap. repeat split; [done|].
  apply Forall_fmap, Forall_true. intros xr. simpl.
  apply add_bias_length; [done|]. by rewrite length_fmap.
Qed.

(** [forward] returns a tensor with one row per row of the input and
    [out_features] columns, on a layer that is merged, or has rank zero, or
    has its low-rank factors. *)
Theorem forward_returns_shape self x n :
  layer_wf self →
  has_lora self = true ∨ (r self ≤ 0)%Z ∨ merged self = true →
  has_shape n (in_features self) x → 0 < n → 0 < out_features self →
  ∃ y, forward self x = Ok y ∧ has_shape n (out_features self) y.
Proof.
  intros Hwf Hcase Hx Hn Ho.
  pose proof (T_shape _ Hwf) as HT.
  assert (has_shape n (out_features self)
            (mkMat (out_features self)
               ((λ xr, add_bias (bias self)
                         ((λ wr, dot xr wr) <$> m_rows (T self (weight self))))
                  <$> m_rows x))) as Hbase.
  { apply projection_shape; [apply Hx|apply HT|by apply wf_bias]. }
  destruct (merged self) eqn:Hm.
  { eexists. split; [|exact Hbase]. unfold forward. rewrite Hm.
    apply (linear_ok x _ _ n (in_features self) (out_features self));
      [done|done|by apply wf_bias]. }
  destruct (decide (r self ≤ 0)%Z) as [Hr|Hr].
  { eexists. split; [|exact Hbase]. by apply (forward_without_rank self x n). }
  destruct Hcase as [Hl|[?|?]]; [|done..].
  pose proof (wf_lora _ Hwf) as HL. rewrite Hl in HL.
  destruct HL as (A & B & s & HA & HB & Hs & HAs & HBs).
  eexists. split; [by apply (forward_unmerged self A B s x n)|].
  destruct Hbase as (Hbn & _ & Hbwf).
  pose proof (apply_dropout_shape self x _ _ Hwf Hx) as (Hxn & _).
  unfold has_shape, m_nrows, mat_wf in *. simpl in *.
  rewrite length_zip_with, !length_fmap in *.
  split; [lia|]. split; [done|].
  apply Forall_lookup. intros i row. rewrite lookup_zip_with.
  intros (b & Eb & (u & Eu & [= <-])%bind_Some)%bind_Some.
  rewrite Forall_lookup in Hbwf.
  rewrite vadd_length; rewrite (Hbwf _ _ Eb); [done|].
  rewrite list_lookup_fmap in Eu.
  destruct (m_rows (apply_dropout self x) !! i); [|done].
  injection Eu as <-. rewrite length_fmap. symmetry. apply HBs.
Qed.

(** [forward] raises [RuntimeError] on an input whose rows do not have
    [in_features] elements, before it reads any low-rank attribute. *)
Theorem forward_rejects_wrong_width self x :
  layer_wf self → m_cols x ≠ in_features self →
  forward self x = Raise RuntimeError.
Proof.
  intros Hwf Hx. pose proof (T_shape _ Hwf) as (_ & HT & _).
  unfold forward, linear. rewrite HT.
  rewrite bool_decide_false by done. by destruct (merged self).
Qed.




End ForwardResults.

(** * Construction, and the merge on a transposed weight *)

Section TransposedWeight.

Context {R : Type} `{ScalarLaws R}.
Implicit Types (self : @Layer R) (A B W D x : @Mat R)
  (a : @InitArgs R) (rnd : @Init R).

Lemma iadd_shape_mismatch W D n m :
  has_shape n m W → has_shape m n D → n ≠ m →
  iadd W D = Raise RuntimeError.
Proof.
  intros (HWn & HWm & _) (HDn & HDm & _) Hnm. unfold iadd, expand_rows.
  rewrite HWn, HWm, HDn, HDm.
  rewrite (bool_decide_eq_false_2 (n = m)) by done.
  rewrite (bool_decide_eq_false_2 (m = n)) by done.
  case_bool_decide as Hn1; [|done]. simpl.
  unfold m_nrows in HDn.
  destruct (m_rows D) as [|row [|row' rows]]; simpl in *; [done| |done].
  congruence.
Qed.

(** On a layer built with [fan_in_fan_out=True] whose [in_features] and
    [out_features] differ, the call of [train] that would merge or unmerge
    raises: the update has the shape (out, in) and the stored weight the
    shape (in, out).  The mode has been set by then, and the weight and
    the [merged] flag are as before. *)
Theorem train_raises_on_transposed_weight (mode : bool) self :
  layer_wf self → has_lora self = true → merge_weights self = true →
  merged self = mode → fan_in_fan_out self = true →
  in_features self ≠ out_features self →
  0 < in_features self → 0 < out_features self →
  train mode self = (set_training mode self, Some RuntimeError).
Proof.
  intros Hwf Hl Hmw Hm Hf Hne Hi Ho.
  pose proof (wf_lora _ Hwf) as HL. rewrite Hl in HL.
  destruct HL as (A & B & s & HA & HB & Hs & HAs & HBs).
  pose proof (wf_weight _ Hwf) as HWs. rewrite Hf in HWs.
  rewrite (train_with_lora mode self A B s) by done.
  destruct (conv1d_ok A B _ _ _ HAs HBs Hi Ho) as (delta_w & -> & Hd).
  simpl.
  by rewrite (iadd_shape_mismatch _ _ _ _ HWs
                (scale_shape (if mode then ropp rI else rI) s _ _ _ Hd) Hne).
Qed.

(** [__init__] returns for sizes that are not negative, a [lora_dropout]
    of at most 1 and an [enable_lora] that is not empty and whose length
    divides [out_features].  The layer it returns satisfies the shape
    invariant, is unmerged and in training mode, and holds the [r], the
    [lora_alpha] and the [enable_lora] it was given.  When [r > 0] and a
    partition is enabled its weight is frozen, [lora_A] is drawn with [r]
    rows, [lora_B] is zero and [scaling] is [lora_alpha / r]; otherwise the
    weight is trainable and the three attributes do not exist.  Its dropout
    is the identity exactly when [lora_dropout] is not positive. *)
Theorem init_establishes_invariant rnd a :
  (∀ x n m, has_shape n m x → has_shape n m (arg_dropout a x)) →
  (0 ≤ arg_in_features a)%Z → (0 ≤ arg_out_features a)%Z →
  (arg_lora_dropout a <= 1)%Q →
  length (arg_enable_lora a) ≠ 0 →
  (arg_out_features a `mod` Z.of_nat (length (arg_enable_lora a)))%Z = 0%Z →
  ∃ self,
    __init__ rnd a = Ok self ∧
    layer_wf self ∧ merged self = false ∧ training self = true ∧
    in_features self = Z.to_nat (arg_in_features a) ∧
    out_features self = Z.to_nat (arg_out_features a) ∧
    r self = arg_r a ∧ lora_alpha self = arg_lora_alpha a ∧
    enable_lora self = arg_enable_lora a ∧
    (lora_dropout self = None ↔ (arg_lora_dropout a <= 0)%Q) ∧
    if bool_decide (0 < arg_r a)%Z && any (arg_enable_lora a)
    then weight_requires_grad self = false ∧
         lora_A self = Some (tabulate (Z.to_nat (arg_r a))
                               (Z.to_nat (arg_in_features a)) (rand_A rnd)) ∧
         lora_B self = Some (new_zeros (Z.to_nat (arg_out_features a))
                               (Z.to_nat (arg_r a))) ∧
         scaling self = Some (true_div (arg_lora_alpha a) (arg_r a))
    else weight_requires_grad self = true ∧
         lora_A self = None ∧ lora_B self = None ∧ scaling self = None.
Proof.
  intros Hdrop Hin Hout Hp Hlen Hmod.
  destruct (init_returns rnd a Hin Hout Hp Hlen Hmod) as [self E].
  exists self. split; [done|].
  destruct (init_ok rnd a self Hdrop E) as (Hwf & Hm & Ht & _).
  split; [done|]. split; [done|]. split; [done|].
  apply init_inv in E as (_ & _ & _ & _ & _ & ->). simpl.
  split; [done|]. split; [done|]. split; [done|]. split; [done|].
  split; [done|]. split.
  - rewrite <- Qle_bool_iff. by destruct (Qle_bool _ _).
  - by destruct (bool_decide (0 < arg_r a)%Z && any (arg_enable_lora a)).
Qed.

End TransposedWeight.

Lemma ex_wide_wf : layer_wf ex_wide.
Proof. solve_layer_wf. Defined.

Lemma train_raises_on_transposed_weight_witness :
  train false ex_wide = (set_training false ex_wide, Some RuntimeError).
Proof.
  apply (train_raises_on_transposed_weight false ex_wide);
    [apply ex_wide_wf | reflexivity | reflexivity | reflexivity | reflexivity
    | simpl; lia | simpl; lia | simpl; lia].
Defined.

Lemma init_establishes_invariant_witness :
  ∃ self,
    __init__ ex_rnd (ex_args 1 3 1 [true; false; true] false) = Ok self ∧
    layer_wf self ∧ merged self = false ∧ training self = true ∧
    in_features self = 1 ∧ out_features self = 3 ∧
    r self = 1%Z ∧ lora_alpha self = 1%Z ∧
    enable_lora self = [true; false; true] ∧
    (lora_dropout self = None ↔ (0 <= 0)%Q) ∧
    weight_requires_grad self = false ∧
    lora_A self = Some (mkMat 1 [[1%Z]]) ∧
    lora_B self = Some (new_zeros 3 1) ∧
    scaling self = Some 1%Z.
Proof.
  refine (init_establishes_invariant ex_rnd
            (ex_args 1 3 1 [true; false; true] false) _ _ _ _ _ _);
    [by intros | simpl; lia | simpl; lia | vm_compute; discriminate
    | simpl; lia | reflexivity].
Defined.

(** * The bias policies of [mark_only_lora_as_trainable] *)

Lemma prefix_refl (s : string) : String.prefix s s = true.
Proof.
  induction s as [|c s IH]; [done|]. simpl.
  by destruct (Ascii.ascii_dec c c).
Qed.

Lemma str_contains_prefix (sub s : string) :
  String.prefix sub s = true → str_contains sub s = true.
Proof.
  intros Hp. destruct s as [|c s].
  - by destruct sub.
  - by rewrite str_contains_cons, Hp.
Qed.

Lemma str_contains_app_r (sub t u : string) :
  str_contains sub u = true → str_contains sub (t +:+ u) = true.
Proof.
  intros Hu. induction t as [|c t IH]; [done|].
  change (String c t +:+ u) with (String c (t +:+ u)).
  rewrite str_contains_cons, IH. apply orb_true_r.
Qed.

Lemma qualified_bias_has_bias (path : string) :
  str_contains "bias" (qualified path "bias") = true.
Proof.
  unfold qualified. case_bool_decide; [done|].
  by apply str_contains_app_r, str_contains_app_r.
Qed.


(** With a [bias] that is not recognized the call raises, but only after
    it has frozen the parameters: the model is left as ["none"] leaves
    it. *)
Theorem mark_only_lora_unknown_policy (model : Model) (bias : string) :
  ¬ known_policy bias →
  mark_only_lora_as_trainable model bias
    = ((mark_only_lora_as_trainable model "none").1, Some NotImplementedError).
Proof.
  intros Hk. rewrite known_policy_cases in Hk.
  unfold mark_only_lora_as_trainable. by repeat case_bool_decide.
Qed.

(** A second call with the same [bias] changes nothing. *)
Theorem mark_only_lora_idempotent (model : Model) (bias : string) :
  mark_only_lora_as_trainable
    (mark_only_lora_as_trainable model bias).1 bias
  = mark_only_lora_as_trainable model bias.
Proof.
  unfold mark_only_lora_as_trainable, set_requires_grad, unfreeze_lora_bias.
  repeat case_bool_decide; simpl; f_equal;
    rewrite <- ?list_fmap_compose; apply list_fmap_ext; intros _ m _; simpl;
    destruct (mod_is_lora m) eqn:Em; simpl; rewrite ?Em; f_equal;
    rewrite <- ?list_fmap_compose; apply list_fmap_ext; intros _ [n g] _; simpl;
    f_equal; repeat case_bool_decide; try done;
    repeat (destruct (str_contains _ _); try done).
Qed.

Lemma Forall2_fmap_diag {A B C : Type} (f : A → B) (g : A → C)
    (P : B → C → Prop) (l : list A) :
  (∀ x, P (f x) (g x)) → Forall2 P (f <$> l) (g <$> l).
Proof.
  intros HP. apply Forall2_fmap, Forall_Forall2_diag, Forall_forall. auto.
Qed.

(** The three policies are ordered.  The calls leave the same parameters
    in the same order, and a parameter that is trainable after ["none"] is
    trainable after ["lora_only"], and one that is trainable after
    ["lora_only"] is trainable after ["all"]. *)
Theorem mark_only_lora_policies_ordered (model : Model) :
  Forall2 flag_le
    (named_parameters (mark_only_lora_as_trainable model "none").1)
    (named_parameters (mark_only_lora_as_trainable model "lora_only").1) ∧
  Forall2 flag_le
    (named_parameters (mark_only_lora_as_trainable model "lora_only").1)
    (named_parameters (mark_only_lora_as_trainable model "all").1).
Proof.
  unfold mark_only_lora_as_trainable, flag_le. simpl.
  set (frozen := set_requires_grad _ false model).
  unfold named_parameters, unfreeze_lora_bias, set_requires_grad.
  split.
  - apply Forall2_bind.
    rewrite <- (list_fmap_id frozen) at 1.
    apply Forall2_fmap_diag. intros m. simpl.
    destruct (mod_is_lora m); simpl.
    + rewrite <- list_fmap_compose. apply Forall2_fmap_diag.
      intros [n g]. split; simpl; [done|]. by case_bool_decide.
    + apply Forall2_fmap_diag. by intros [n g].
  - apply Forall2_bind, Forall2_fmap_diag. intros m. simpl.
    rewrite <- list_fmap_compose.
    destruct (mod_is_lora m); simpl.
    + rewrite <- list_fmap_compose. apply Forall2_fmap_diag.
      intros [n g]. split; simpl; [done|].
      case_bool_decide as Hn; [|by destruct (str_contains "bias" _)].
      subst n. by rewrite qualified_bias_has_bias.
    + apply Forall2_fmap_diag. intros [n g]. split; simpl; [done|].
      by destruct (str_contains "bias" _).
Qed.

(** * The policies of [lora_state_dict] *)

Section StateDictPolicies.

Context {V : Type}.
Implicit Types (full m d : gmap string V).

Lemma bias_name_has_bias (k : string) :
  str_contains "bias" (bias_name k) = true.
Proof. unfold bias_name. by apply str_contains_app_r. Qed.

(** The three selections are nested: what ["none"] returns is part of what
    ["lora_only"] returns, which is part of what ["all"] returns, which is
    part of the state dict. *)
Theorem lora_state_dict_policies_ordered full :
  ∃ d_none d_only d_all,
    lora_state_dict full "none" = Ok d_none ∧
    lora_state_dict full "lora_only" = Ok d_only ∧
    lora_state_dict full "all" = Ok d_all ∧
    d_none ⊆ d_only ∧ d_only ⊆ d_all ∧ d_all ⊆ full.
Proof.
  eexists _, _, _. split; [done|]. split; [done|]. split; [done|].
  split; [|split].
  - apply map_subseteq_spec. intros k v.
    rewrite map_lookup_filter_Some, lora_only_fold by done. simpl.
    rewrite Is_true_true. intros [Hk Hm]. eauto 6.
  - apply map_subseteq_spec. intros k v.
    rewrite map_lookup_filter_Some, lora_only_fold by done. simpl.
    rewrite Is_true_true, orb_true_iff.
    intros [Hk [[Hm _]|(k0 & _ & _ & ->)]]; [by eauto|].
    split; [done|]. right. apply bias_name_has_bias.
  - apply map_filter_subseteq.
Qed.

(** Selecting again from a selection returns it unchanged. *)
Theorem lora_state_dict_idempotent full d (bias : string) :
  lora_state_dict full bias = Ok d → lora_state_dict d bias = Ok d.
Proof.
  unfold lora_state_dict. repeat case_bool_decide; [| | |done].
  - intros [= <-]. f_equal. apply map_eq. intros k. apply option_eq. intros v.
    rewrite !map_lookup_filter_Some. tauto.
  - intros [= <-]. f_equal. apply map_eq. intros k. apply option_eq. intros v.
    rewrite !map_lookup_filter_Some. tauto.
  - intros [= <-]. f_equal. apply map_eq. intros k. apply option_eq. intros v.
    set (d := map_fold (lora_only_step full) ∅ full).
    assert (∀ k v, d !! k = Some v ↔
              full !! k = Some v ∧
              (str_contains "lora_" k = true ∨
               ∃ k0, is_Some (full !! k0) ∧ str_contains "lora_" k0 = true
                     ∧ k = bias_name k0)) as Hd.
    { intros k' v'. unfold d. rewrite lora_only_fold by done. split.
      - intros (Hk & [[? _]|?]); eauto.
      - intros (Hk & [?|?]); eauto. }
    rewrite lora_only_fold by done. split.
    + by intros [Hk _].
    + intros Hk. split; [done|].
      apply Hd in Hk as Hk'. destruct Hk' as [Hf [Hm|(k0 & [v0 Hk0] & Hm & ->)]].
      * left. eauto.
      * right. exists k0. split; [|done].
        exists v0. apply Hd. eauto.
Qed.

(** A state dict without a key that has the marker gives the empty
    selection with ["none"] and with ["lora_only"]: no bias is returned
    for a model without low-rank factors. *)
Theorem lora_state_dict_without_factors full :
  (∀ k, is_Some (full !! k) → str_contains "lora_" k = false) →
  lora_state_dict full "none" = Ok ∅ ∧
  lora_state_dict full "lora_only" = Ok ∅.
Proof.
  intros Hno. split.
  - unfold lora_state_dict. simpl. f_equal. apply map_empty. intros k.
    apply eq_None_not_Some. intros [v Hv].
    apply map_lookup_filter_Some in Hv as [Hk Hm]. simpl in Hm.
    apply Is_true_true in Hm. rewrite Hno in Hm by eauto. done.
  - unfold lora_state_dict. simpl. f_equal. apply map_empty. intros k.
    apply eq_None_not_Some. intros [v Hv].
    apply lora_only_fold in Hv as [Hk [[Hm _]|(k0 & Hk0 & Hm & _)]]; [| |done].
    + rewrite Hno in Hm by eauto. done.
    + rewrite Hno in Hm by eauto. done.
Qed.

End StateDictPolicies.

(** * The attention block and the scope *)

Section AttentionFacts.

Context {R : Type} `{Scalar R} {F : Type}.
Implicit Types (g : @Globals F) (cfg : @LoRAConfig F) (config : LLaMAConfig)
  (read : @Reading R F) (rnd : @Init R).

(** The outcomes of the call of [MergedLinearFull] that the attention
    block makes: the assertion on [enable_lora] cannot fail, as three
    partitions divide [3 * n_embd]. *)
Lemma qkv_init_cases rnd (n rk alpha : Z) (p : Q) (drop : @Mat R → @Mat R) :
  ((n < 0)%Z ∧
   __init__ rnd (mkInitArgs n (3 * n) rk alpha p drop [true; false; true]
                   false true false) = Raise RuntimeError) ∨
  ((0 ≤ n)%Z ∧ (1 < p)%Q ∧
   __init__ rnd (mkInitArgs n (3 * n) rk alpha p drop [true; false; true]
                   false true false) = Raise ValueError) ∨
  ((0 ≤ n)%Z ∧ (p <= 1)%Q ∧
   ∃ layer,
     __init__ rnd (mkInitArgs n (3 * n) rk alpha p drop [true; false; true]
                     false true false) = Ok layer).
Proof.
  destruct (Z_lt_le_dec n 0) as [Hn|Hn].
  { left. split; [done|]. apply init_raises. left. split; [by left|done]. }
  right. destruct (Qlt_le_dec 1 p) as [Hp|Hp].
  { left. split; [done|]. split; [done|]. apply init_raises. right. left.
    simpl. repeat split; [done|lia|done]. }
  right. split; [done|]. split; [done|].
  apply init_returns; simpl; [done|lia|done|done|].
  rewrite Z.mul_comm. by apply Z.mod_mul.
Qed.

(** Inside an enabled scope whose [dropout] is at most 1, the attention
    block is built for every configuration whose [n_embd] is not negative
    and whose [n_head] is not zero and divides [n_embd].  The projection
    [c_attn] satisfies the shape invariant, is unmerged, stores its weight
    untransposed, has no bias, and has low-rank factors exactly when the
    [r] of the scope is positive. *)
Theorem attention_init_in_scope read rnd (rand_proj : nat → nat → R) cfg g config :
  config_n_head config ≠ 0%Z →
  (config_n_embd config `mod` config_n_head config)%Z = 0%Z →
  (0 ≤ config_n_embd config)%Z →
  (as_probability read (cfg_dropout cfg) <= 1)%Q →
  (∀ x n m, has_shape n m x →
            has_shape n m (dropout_of read (cfg_dropout cfg) x)) →
  ∃ attn,
    CausalSelfAttention_init read rnd rand_proj (lora_enter cfg true g).1 config
      = Ok attn ∧
    layer_wf (c_attn attn) ∧
    merged (c_attn attn) = false ∧
    fan_in_fan_out (c_attn attn) = false ∧
    bias (c_attn attn) = None ∧
    in_features (c_attn attn) = Z.to_nat (config_n_embd config) ∧
    out_features (c_attn attn) = Z.to_nat (3 * config_n_embd config) ∧
    r (c_attn attn) = as_int read (cfg_r cfg) ∧
    has_lora (c_attn attn) = bool_decide (0 < as_int read (cfg_r cfg))%Z ∧
    has_shape (Z.to_nat (config_n_embd config)) (Z.to_nat (config_n_embd config))
      (c_proj attn).
Proof.
  intros Hhead Hmod Hembd Hp Hdrop. unfold CausalSelfAttention_init.
  rewrite bool_decide_eq_false_2, bool_decide_eq_true_2 by done.
  cbn [negb lora_enter fst lora_config getattr mbind result_bind].
  destruct (qkv_init_cases rnd (config_n_embd config)
              (as_int read (cfg_r cfg)) (as_int read (cfg_alpha cfg))
              (as_probability read (cfg_dropout cfg))
              (dropout_of read (cfg_dropout cfg)))
    as [[? _]|[(_ & Hp' & _)|(_ & _ & layer & Hlayer)]];
    [lia | by apply Qlt_not_le in Hp' |].
  rewrite Hlayer. unfold nn_Linear_weight.
  rewrite (proj2 (negative_size _ _)) by done.
  eexists. split; [done|]. cbn [c_attn c_proj].
  assert (bias layer = None) as Hbias.
  { by apply init_inv in Hlayer as (_ & _ & _ & _ & _ & ->). }
  apply init_ok in Hlayer as (Hwf & Hm & _ & Hr & Hen & Hf & _ & Hin & Hout);
    [|done].
  simpl in *. split; [done|]. split; [done|]. split; [done|]. split; [done|].
  split; [done|]. split; [done|]. split; [done|].
  split; [|apply tabulate_shape].
  unfold has_lora. rewrite Hr, Hen. simpl. apply andb_true_r.
Qed.

(** The five ways in which the attention block fails to be built, in the
    order in which the code meets them, and no other: [n_head] is zero,
    [n_head] does not divide [n_embd], no scope has set [lora_config],
    [n_embd] is negative, or the [dropout] of the scope is above 1. *)
Theorem attention_init_raises read rnd (rand_proj : nat → nat → R) g config
    (e : PyError) :
  CausalSelfAttention_init read rnd rand_proj g config = Raise e ↔
  (config_n_head config = 0%Z ∧ e = ZeroDivisionError) ∨
  (config_n_head config ≠ 0%Z ∧
   (config_n_embd config `mod` config_n_head config)%Z ≠ 0%Z ∧
   e = AssertionError) ∨
  (config_n_head config ≠ 0%Z ∧
   (config_n_embd config `mod` config_n_head config)%Z = 0%Z ∧
   lora_config g = None ∧ e = AttributeError) ∨
  (config_n_head config ≠ 0%Z ∧
   (config_n_embd config `mod` config_n_head config)%Z = 0%Z ∧
   ∃ cfg, lora_config g = Some cfg ∧
     (((config_n_embd config < 0)%Z ∧ e = RuntimeError) ∨
      ((0 ≤ config_n_embd config)%Z ∧
       (1 < as_probability read (cfg_dropout cfg))%Q ∧ e = ValueError))).
Proof.
  unfold CausalSelfAttention_init. case_bool_decide as Hhead.
  { split; [intros [= <-]; by left|].
    intros [[_ ->]|[(? & _)|[(? & _)|(? & _)]]]; done. }
  case_bool_decide as Hmod; cbn [negb].
  2:{ split; [intros [= <-]; right; by left|].
      intros [[? _]|[(_ & _ & ->)|[(_ & ? & _)|(_ & ? & _)]]]; done. }
  destruct (lora_config g) as [cfg|]; cbn [getattr mbind result_bind].
  2:{ split; [intros [= <-]; right; right; by left|].
      intros [[? _]|[(_ & ? & _)|[(_ & _ & _ & ->)|(_ & _ & ? & ? & _)]]];
        done. }
  destruct (qkv_init_cases rnd (config_n_embd config)
              (as_int read (cfg_r cfg)) (as_int read (cfg_alpha cfg))
              (as_probability read (cfg_dropout cfg))
              (dropout_of read (cfg_dropout cfg)))
    as [[Hn ->]|[(Hn & Hp & ->)|(Hn & Hp & layer & ->)]].
  - split.
    + intros [= <-]. right. right. right. split; [done|]. split; [done|].
      exists cfg. split; [done|]. by left.
    + intros [[? _]|[(_ & ? & _)|[(_ & _ & ? & _)|(_ & _ & cfg' & [= <-] & Hc)]]];
        [done..|].
      destruct Hc as [[_ ->]|[? _]]; [done|lia].
  - split.
    + intros [= <-]. right. right. right. split; [done|]. split; [done|].
      exists cfg. split; [done|]. by right.
    + intros [[? _]|[(_ & ? & _)|[(_ & _ & ? & _)|(_ & _ & cfg' & [= <-] & Hc)]]];
        [done..|].
      destruct Hc as [[? _]|(_ & _ & ->)]; [lia|done].
  - unfold nn_Linear_weight. rewrite (proj2 (negative_size _ _)) by done.
    split; [done|].
    intros [[? _]|[(_ & ? & _)|[(_ & _ & ? & _)|(_ & _ & cfg' & [= <-] & Hc)]]];
      [done..|].
    destruct Hc as [[? _]|(_ & Hp' & _)]; [lia|by apply Qlt_not_le in Hp'].
Qed.

(** A scope that is entered inside another one and whose body returns
    clears [lora_config] for the rest of the outer scope:
    [llama.CausalSelfAttention] again names the class of this file, as the
    outer scope set it, and building that class raises. *)
Theorem nested_scope_clears_config read rnd (rand_proj : nat → nat → R)
    cfg1 cfg2 (body : Globals → Globals * option PyError) g g2 config :
  config_n_head config ≠ 0%Z →
  (config_n_embd config `mod` config_n_head config)%Z = 0%Z →
  body (lora_enter cfg2 true (lora_enter cfg1 true g).1).1 = (g2, None) →
  llama_CausalSelfAttention
    (with_lora cfg2 true body (lora_enter cfg1 true g).1).1
    = LoraCausalSelfAttention ∧
  CausalSelfAttention_init read rnd rand_proj
    (with_lora cfg2 true body (lora_enter cfg1 true g).1).1 config
    = Raise AttributeError.
Proof.
  intros Hhead Hmod Hbody. unfold with_lora. simpl in *. rewrite Hbody. simpl.
  split; [done|]. unfold CausalSelfAttention_init.
  by rewrite bool_decide_eq_false_2, bool_decide_eq_true_2.
Qed.

End AttentionFacts.

(** * The properties above on the examples *)

Lemma merge_safe_ex_square : merge_safe (ex_square false).
Proof. right. right. simpl. repeat split; lia. Defined.

Lemma train_all_last_call_witness :
  train_all ([false; true; true] ++ [false]) (ex_square false)
    = train false (ex_square false).
Proof.
  apply (train_all_last_call [false; true; true] false (ex_square false));
    [apply ex_square_wf | apply merge_safe_ex_square].
Defined.


Lemma merged_weight_entries_witness :
  (train false (ex_square false)).2 = None ∧
  merged (train false (ex_square false)).1 = true ∧
  ∀ j i, j < 2 → i < 2 →
    ∃ w Bj,
      entry (weight (ex_square false)) j i = Some w ∧
      [[0]; [1]]%Z !! j = Some Bj ∧
      entry (weight (train false (ex_square false)).1) j i =
        Some (w + 1 * dot Bj ((λ Ak, nth i Ak 0) <$> [[1; 0]]) * 1)%Z.
Proof.
  refine (merged_weight_entries (ex_square false)
            (mkMat 2 [[1; 0]]%Z) (mkMat 1 [[0]; [1]]%Z) 1%Z _ _ _ _ _ _ _ _ _ _);
    [apply ex_square_wf | reflexivity | reflexivity | reflexivity | reflexivity
    | reflexivity | reflexivity | reflexivity | simpl; lia | simpl; lia].
Defined.

Lemma forward_returns_shape_witness :
  ∃ y, forward (ex_square false) ex_eye = Ok y ∧ has_shape 2 2 y.
Proof.
  apply (forward_returns_shape (ex_square false) ex_eye 2);
    [apply ex_square_wf | left; reflexivity | apply ex_eye_shape | lia
    | simpl; lia].
Defined.

Lemma forward_rejects_wrong_width_witness :
  forward (ex_square false) ex_one = Raise RuntimeError.
Proof.
  apply (forward_rejects_wrong_width (ex_square false) ex_one);
    [apply ex_square_wf | simpl; lia].
Defined.


Lemma mark_only_lora_unknown_policy_witness :
  mark_only_lora_as_trainable ex_model "lora"
    = ((mark_only_lora_as_trainable ex_model "none").1, Some NotImplementedError).
Proof.
  apply (mark_only_lora_unknown_policy ex_model "lora").
  intros [?|[?|?]]; discriminate.
Defined.

Lemma lora_state_dict_idempotent_witness :
  lora_state_dict (<["c_attn.lora_A" := 1]> (<["c_attn.bias" := 2]> ∅)) "lora_only"
    = Ok (<["c_attn.lora_A" := 1]> (<["c_attn.bias" := 2]> (∅ : gmap string nat))).
Proof.
  apply (lora_state_dict_idempotent ex_checkpoint). vm_compute. reflexivity.
Defined.

Lemma lora_state_dict_without_factors_witness :
  lora_state_dict ex_plain_state_dict "none" = Ok ∅ ∧
  lora_state_dict ex_plain_state_dict "lora_only" = Ok ∅.
Proof.
  apply (lora_state_dict_without_factors ex_plain_state_dict).
  intros k. unfold ex_plain_state_dict.
  rewrite !lookup_insert_is_Some', lookup_empty.
  intros [<-|[<-|Hk]]; [reflexivity|reflexivity|].
  by apply is_Some_None in Hk.
Defined.

Lemma attention_init_in_scope_witness :
  ∃ attn,
    CausalSelfAttention_init ex_reading ex_rnd (λ _ _, 0%Z)
      (lora_enter ex_cfg true ex_globals).1 ex_config = Ok attn ∧
    layer_wf (c_attn attn) ∧
    merged (c_attn attn) = false ∧
    fan_in_fan_out (c_attn attn) = false ∧
    bias (c_attn attn) = None ∧
    in_features (c_attn attn) = 4 ∧
    out_features (c_attn attn) = 12 ∧
    r (c_attn attn) = 8%Z ∧
    has_lora (c_attn attn) = true ∧
    has_shape 4 4 (c_proj attn).
Proof.
  refine (attention_init_in_scope ex_reading ex_rnd (λ _ _, 0%Z) ex_cfg
            ex_globals ex_config _ _ _ _ _);
    [simpl; lia | reflexivity | simpl; lia | vm_compute; discriminate
    | by intros].
Defined.

Lemma nested_scope_clears_config_witness :
  llama_CausalSelfAttention
    (with_lora ex_cfg true ex_body (lora_enter ex_cfg true ex_globals).1).1
    = LoraCausalSelfAttention ∧
  CausalSelfAttention_init ex_reading ex_rnd (λ _ _, 0%Z)
    (with_lora ex_cfg true ex_body (lora_enter ex_cfg true ex_globals).1).1
    ex_config
    = Raise AttributeError.
Proof.
  apply (nested_scope_clears_config ex_reading ex_rnd (λ _ _, 0%Z) ex_cfg ex_cfg
           ex_body ex_globals (mkGlobals LoraCausalSelfAttention (Some ex_cfg))
           ex_config);
    [simpl; lia | reflexivity | reflexivity].
Defined.
